(** * Biblelib: canonical Bible references, ranges of references, word identifiers

    A shallow embedding of [biblelib/words/mappings.py] ([ClearID]) and of
    [biblelib/unit/unitrange.py] ([ChapterRange], [VerseRange]).

    Python objects are records of attributes; an attribute that a dataclass
    declares with [field(init=False)] and no default is absent until it is
    assigned, so such attributes are [option]-valued.  Method bodies are
    written in a state-and-exception monad over [self]. *)

From Stdlib Require Import String Ascii List Arith PeanoNat NArith ZArith Lia Bool.
From Stdlib Require Import Sorted.
Import ListNotations.

Open Scope string_scope.
Open Scope list_scope.
Open Scope nat_scope.

(** ** Python run-time model *)

(** The [assert] statements of the two modules, named after their messages. *)
Inductive assertion : Type :=
| InvalidLength      (* "Invalid length: ..." *)
| SameBook           (* "... must be in the same book." *)
| MustPrecede.       (* "... must (equal or) precede endid ..." *)

Inductive exn : Type :=
| AssertionError (a : assertion)
| AttributeError (attr : string)
| IndexError
| ValueError.

Definition result (A : Type) : Type := (exn + A)%type.

(** A method body: reads and writes [self : S], returns an [A] or raises. *)
Definition M (S A : Type) : Type := S -> result A * S.

Definition ret {S A} (a : A) : M S A := fun self => (inr a, self).

Definition raise {S A} (e : exn) : M S A := fun self => (inl e, self).

Definition bind {S A B} (m : M S A) (k : A -> M S B) : M S B :=
  fun self =>
    match m self with
    | (inr a, self') => k a self'
    | (inl e, self') => (inl e, self')
    end.

Notation "x <- m ;; k" := (bind m (fun x => k))
  (at level 61, m at next level, right associativity).
Notation "m ;;; k" := (bind m (fun _ => k))
  (at level 61, right associativity).

(** [self.f] for an attribute that is always present. *)
Definition get {S A} (f : S -> A) : M S A := fun self => (inr (f self), self).

(** [self.name] for an attribute that may not have been assigned yet. *)
Definition getattr {S A} (name : string) (f : S -> option A) : M S A :=
  fun self =>
    match f self with
    | Some a => (inr a, self)
    | None => (inl (AttributeError name), self)
    end.

(** [self.f = v], given the record update for [f]. *)
Definition setattr {S} (upd : S -> S) : M S unit := fun self => (inr tt, upd self).

(** A computation that does not touch [self]. *)
Definition lift {S A} (r : result A) : M S A := fun self => (r, self).

(** [assert b, msg] *)
Definition assert_ {S} (b : bool) (a : assertion) : M S unit :=
  if b then ret tt else raise (AssertionError a).

(** A dataclass constructor: [__init__] stores the arguments, runs
    [__post_init__], and the instance reaches the caller only when that
    returned normally. *)
Definition construct {S} (self0 : S) (post_init : M S unit) : result S :=
  match post_init self0 with
  | (inr _, self) => inr self
  | (inl e, _) => inl e
  end.

(** Calling a method on another object [obj]; the caller keeps the value. *)
Definition call {S A} (m : M S A) (obj : S) : result A := fst (m obj).

(** [m] never assigns to [self]. *)
Definition readonly {S A} (m : M S A) : Prop := forall self, snd (m self) = self.

(** *** Strings *)

(** [s[i:j]] for constant indices [0 <= i <= j]: Python clamps the slice to
    the string, and so does [substring]. *)
Definition str_slice (i j : nat) (s : string) : string := substring i (j - i) s.

(** [s[:j]] *)
Definition str_prefix (j : nat) (s : string) : string := str_slice 0 j s.

(** [s[i]] for a constant index [0 <= i]; a one-character string. *)
Definition str_getitem (s : string) (i : nat) : result string :=
  match String.get i s with
  | Some c => inr (String c "")
  | None => inl IndexError
  end.

Definition is_digit (c : ascii) : bool :=
  (48 <=? nat_of_ascii c) && (nat_of_ascii c <=? 57).

Definition digit_val (c : ascii) : nat := nat_of_ascii c - 48.

Fixpoint all_digits (s : string) : bool :=
  match s with
  | "" => true
  | String c s' => is_digit c && all_digits s'
  end.

Fixpoint int_from (acc : nat) (s : string) : result nat :=
  match s with
  | "" => inr acc
  | String c s' =>
      if is_digit c then int_from (10 * acc + digit_val c) s' else inl ValueError
  end.

(** [int(s)] on a string of decimal digits.  (Python's [int] also accepts
    surrounding blanks, a sign and underscores; the components of a canonical
    identifier are plain digit strings.) *)
Definition int (s : string) : result nat :=
  match s with
  | "" => inl ValueError
  | _ => int_from 0 s
  end.

(** The value of a digit string, most significant digit first. *)
Fixpoint digits_value (s : string) : nat :=
  match s with
  | "" => 0
  | String c s' => digit_val c * 10 ^ String.length s' + digits_value s'
  end.

Definition digit_char (d : nat) : ascii := ascii_of_nat (48 + d).

Fixpoint str_digits (fuel n : nat) (acc : string) : string :=
  match fuel with
  | 0 => acc
  | S fuel' =>
      let acc' := String (digit_char (n mod 10)) acc in
      if n <? 10 then acc' else str_digits fuel' (n / 10) acc'
  end.

(** [str(n)] for a natural number. *)
Definition str (n : nat) : string := str_digits (S n) n "".

Fixpoint zeros (k : nat) : string :=
  match k with
  | 0 => ""
  | S k' => String "0" (zeros k')
  end.

(** [s.zfill(width)] for an unsigned digit string. *)
Definition zfill (width : nat) (s : string) : string :=
  (zeros (width - String.length s) ++ s)%string.

(** *** Lists *)

(** [range(a, b)] *)
Definition range (a b : nat) : list nat := seq a (b - a).

(** A Python index, negative ones counting from the end, as a position. *)
Definition norm_index (n : nat) (i : Z) : Z :=
  if (i <? 0)%Z then (i + Z.of_nat n)%Z else i.

(** [l[i]] *)
Definition getitem {A} (l : list A) (i : Z) : result A :=
  let j := norm_index (List.length l) i in
  if (j <? 0)%Z then inl IndexError
  else match nth_error l (Z.to_nat j) with
       | Some a => inr a
       | None => inl IndexError
       end.

(** [l[i:j]]: both ends are clamped to the list. *)
Definition getslice {A} (l : list A) (i j : Z) : list A :=
  let n := List.length l in
  let clamp k := Z.to_nat (Z.max 0 (Z.min (Z.of_nat n) (norm_index n k))) in
  firstn (clamp j - clamp i) (skipn (clamp i) l).

(** [[f(x) for x in l]] where [f] may raise: the first exception ends it. *)
Fixpoint list_comprehension {A B} (f : A -> result B) (l : list A) : result (list B) :=
  match l with
  | [] => inr []
  | x :: l' =>
      match f x with
      | inl e => inl e
      | inr y =>
          match list_comprehension f l' with
          | inl e => inl e
          | inr ys => inr (y :: ys)
          end
      end
  end.

(** ** biblelib/words/mappings.py *)

Module ClearID.

Record t : Type := mk {
  ID : string;
  book_ID : option string;
  chapter_ID : option string;
  verse_ID : option string;
  word_ID : option string;
  part_ID : option string
}.

Definition set_book_ID (v : string) (self : t) : t :=
  mk (ID self) (Some v) (chapter_ID self) (verse_ID self) (word_ID self) (part_ID self).

Definition set_chapter_ID (v : string) (self : t) : t :=
  mk (ID self) (book_ID self) (Some v) (verse_ID self) (word_ID self) (part_ID self).

Definition set_verse_ID (v : string) (self : t) : t :=
  mk (ID self) (book_ID self) (chapter_ID self) (Some v) (word_ID self) (part_ID self).

Definition set_word_ID (v : string) (self : t) : t :=
  mk (ID self) (book_ID self) (chapter_ID self) (verse_ID self) (Some v) (part_ID self).

Definition set_part_ID (v : string) (self : t) : t :=
  mk (ID self) (book_ID self) (chapter_ID self) (verse_ID self) (word_ID self) (Some v).

(** [__init__]: [ID] is the only argument; [part_ID] has the default [""],
    the other fields are [init=False] without a default. *)
Definition init (ID : string) : t := mk ID None None None None (Some "").

Definition post_init : M t unit :=
  n <- get (fun self => String.length (ID self)) ;;
  assert_ ((n <=? 12) && (11 <=? n)) InvalidLength ;;;
  v <- get (fun self => str_prefix 2 (ID self)) ;;
  setattr (set_book_ID v) ;;;
  v <- get (fun self => str_slice 2 5 (ID self)) ;;
  setattr (set_chapter_ID v) ;;;
  v <- get (fun self => str_slice 5 8 (ID self)) ;;
  setattr (set_verse_ID v) ;;;
  v <- get (fun self => str_slice 8 11 (ID self)) ;;
  setattr (set_word_ID v) ;;;
  n <- get (fun self => String.length (ID self)) ;;
  if n =? 12 then
    s <- get ID ;;
    v <- lift (str_getitem s 11) ;;
    setattr (set_part_ID v)
  else ret tt.

(** [ClearID(ID)] *)
Definition new (ID : string) : result t := construct (init ID) post_init.

(** [c.book_ID + c.chapter_ID + c.verse_ID + c.word_ID + c.part_ID] *)
Definition components : M t string :=
  b <- getattr "book_ID" book_ID ;;
  c <- getattr "chapter_ID" chapter_ID ;;
  v <- getattr "verse_ID" verse_ID ;;
  w <- getattr "word_ID" word_ID ;;
  p <- getattr "part_ID" part_ID ;;
  ret (b ++ c ++ v ++ w ++ p)%string.

End ClearID.

(** ** Collaborators of the range classes

    [biblelib.word.bcvwpid] (the identifier classes and [simplify]) and
    [biblelib.unit.chapter], [.verse], [.unit] ([Chapter], [Verse], [pad]) are
    imported by [unitrange.py]; their modules are outside the files embedded
    here. *)

Module BID.

(** Modelled from the spec: the book-level canonical identifier of
    [biblelib.word.bcvwpid], "a structured reference ... with a fixed-width
    textual encoding and a total order", "comparable for equality and
    ordering".  The layout is the one [ClearID] slices: two digits. *)
Record t : Type := mk { ID : string }.

Definition book_ID (x : t) : string := str_prefix 2 (ID x).

Definition eqb (x y : t) : bool := (ID x =? ID y)%string.

End BID.

Module BCID.

(** Modelled from the spec: the chapter-level canonical identifier of
    [biblelib.word.bcvwpid], BBCCC, with the string-typed component accessors
    [book_ID] and [chapter_ID] "convertible to integers"; equality and order
    are those of the textual encoding. *)
Record t : Type := mk { ID : string }.

Definition book_ID (x : t) : string := str_prefix 2 (ID x).

Definition chapter_ID (x : t) : string := str_slice 2 5 (ID x).

Definition eqb (x y : t) : bool := (ID x =? ID y)%string.

Definition leb (x y : t) : bool := (ID x <=? ID y)%string.

Definition ltb (x y : t) : bool := (ID x <? ID y)%string.

(** A well-formed chapter identifier: five decimal digits. *)
Definition wf (x : t) : bool := (String.length (ID x) =? 5) && all_digits (ID x).

(** Modelled from the spec: the constructor [BCID(s)] of
    [biblelib.word.bcvwpid]; like [ClearID] it asserts the length of [s], and
    its components must be convertible to integers ("a malformed padded
    identifier" fails). *)
Definition new (s : string) : result t :=
  if negb (String.length s =? 5) then inl (AssertionError InvalidLength)
  else if negb (all_digits s) then inl ValueError
  else inr (mk s).

End BCID.

Module BCVID.

(** Modelled from the spec: the verse-level canonical identifier of
    [biblelib.word.bcvwpid], BBCCCVVV, with the component accessors [book_ID],
    [chapter_ID] and [verse_ID]; equality and order are those of the textual
    encoding. *)
Record t : Type := mk { ID : string }.

Definition book_ID (x : t) : string := str_prefix 2 (ID x).

Definition chapter_ID (x : t) : string := str_slice 2 5 (ID x).

Definition verse_ID (x : t) : string := str_slice 5 8 (ID x).

Definition eqb (x y : t) : bool := (ID x =? ID y)%string.

Definition leb (x y : t) : bool := (ID x <=? ID y)%string.

(** A well-formed verse identifier: eight decimal digits.  Nothing relates
    the verse number to the length of the chapter: like [ClearID], the
    identifier "only records the data". *)
Definition wf (x : t) : bool := (String.length (ID x) =? 8) && all_digits (ID x).

(** Modelled from the spec: the property [to_bid] of [BCVID]; the book-level
    identifier of a verse ("Derives the book component from startid"). *)
Definition to_bid (x : t) : BID.t := BID.mk (str_prefix 2 (ID x)).

End BCVID.

(** [simplify(inst, target)]: the target class is an argument in Python and
    the index of the instance here. *)
Class Simplify (A B : Type) : Type := simplify_to : A -> B.

Definition simplify {A : Type} (inst : A) (B : Type) {S : Simplify A B} : B :=
  simplify_to inst.

(** Modelled from the spec: [simplify] of [biblelib.word.bcvwpid], "reduce an
    identifier to a coarser-grained kind by dropping its finer components
    (verse -> chapter -> book)". *)
#[global] Instance simplify_BCID_BID : Simplify BCID.t BID.t :=
  fun x => BID.mk (str_prefix 2 (BCID.ID x)).

#[global] Instance simplify_BCVID_BID : Simplify BCVID.t BID.t :=
  fun x => BID.mk (str_prefix 2 (BCVID.ID x)).

#[global] Instance simplify_BCVID_BCID : Simplify BCVID.t BCID.t :=
  fun x => BCID.mk (str_prefix 5 (BCVID.ID x)).

(** Modelled from the spec: [pad] of [biblelib.unit.unit], "a zero-pad-to-width
    integer-to-string helper". *)
Definition pad (i n : nat) : string := zfill n (str i).

Module Verse.

(** Modelled from the spec: [Verse] of [biblelib.unit.verse], the unit that a
    verse-level identifier identifies. *)
Record t : Type := mk { identifier : BCVID.t }.

End Verse.

Module Chapter.

(** Modelled from the spec: [Chapter] of [biblelib.unit.chapter]; "given a
    chapter-level identifier, knows the last verse number in that chapter and
    can enumerate verse identifiers between two verse numbers within itself". *)
Record t : Type := mk { inst : BCID.t }.

Definition identifier (c : t) : BCID.t := inst c.

(** [Chapter(...).lastverse]: read from the canon's table of chapter lengths,
    which is data of the library; the table is a parameter. *)
Definition lastverse (lastverse_of : BCID.t -> nat) (c : t) : nat :=
  lastverse_of (inst c).

(** Modelled from the spec: [Chapter.enumerate(start, end)] "produces ordered
    verse-level identifiers for verse numbers in the inclusive range given". *)
Definition enumerate (c : t) (startindex endindex : nat) : list Verse.t :=
  map (fun v => Verse.mk (BCVID.mk (BCID.ID (inst c) ++ pad v 3)%string))
      (range startindex (endindex + 1)).

End Chapter.

(** ** biblelib/unit/unitrange.py *)

Module ChapterRange.

Record t : Type := mk { startid : BCID.t; endid : BCID.t }.

Definition post_init : M t unit :=
  s <- get startid ;;
  e <- get endid ;;
  assert_ (BID.eqb (simplify s BID.t) (simplify e BID.t)) SameBook ;;;
  s <- get startid ;;
  e <- get endid ;;
  assert_ (BCID.leb s e) MustPrecede.

(** [ChapterRange(startid, endid)] *)
Definition new (startid endid : BCID.t) : result t :=
  construct (mk startid endid) post_init.

(** [Chapter(BCID(bookid + pad(i, 3)))] *)
Definition chapter_of (bookid : string) (i : nat) : result Chapter.t :=
  match BCID.new (bookid ++ pad i 3)%string with
  | inr b => inr (Chapter.mk b)
  | inl e => inl e
  end.

Definition enumerate : M t (list Chapter.t) :=
  s <- get startid ;;
  e <- get endid ;;
  if BCID.eqb s e then
    s <- get startid ;;
    ret [Chapter.mk s]
  else
    bookid <- get (fun self => BCID.book_ID (startid self)) ;;
    c <- get (fun self => BCID.chapter_ID (startid self)) ;;
    startid_chap <- lift (int c) ;;
    c <- get (fun self => BCID.chapter_ID (endid self)) ;;
    endid_chap <- lift (int c) ;;
    let chapters := range startid_chap (endid_chap + 1) in
    lift (list_comprehension (chapter_of bookid) chapters).

End ChapterRange.

Module VerseRange.

Record t : Type := mk {
  startid : BCVID.t;
  endid : BCVID.t;
  ID : option string;
  book_ID : option string
}.

Definition set_book_ID (v : string) (self : t) : t :=
  mk (startid self) (endid self) (ID self) (Some v).

(** [__init__]: [ID] and [book_ID] are [field(init=False)] without a default. *)
Definition init (startid endid : BCVID.t) : t := mk startid endid None None.

Section Comparison.

(** [self.book_ID == simplify(self.endid, BID)] compares a [str] with a [BID]
    instance; [str.__eq__] declines, so Python asks [BID.__eq__], which is
    code of [biblelib.word.bcvwpid]: a parameter. *)
Variable str_eq_BID : string -> BID.t -> bool.

Definition post_init : M t unit :=
  book <- get (fun self => BCVID.to_bid (startid self)) ;;
  setattr (set_book_ID (BID.ID book)) ;;;
  b <- getattr "book_ID" book_ID ;;
  e <- get endid ;;
  assert_ (str_eq_BID b (simplify e BID.t)) SameBook ;;;
  s <- get startid ;;
  e <- get endid ;;
  assert_ (BCVID.leb s e) MustPrecede.

(** [VerseRange(startid, endid)] *)
Definition new (startid endid : BCVID.t) : result t :=
  construct (init startid endid) post_init.

End Comparison.

Section Canon.

Variable lastverse_of : BCID.t -> nat.

Definition get_verses (bcid : BCID.t) (startindex endindex : nat) : list Verse.t :=
  Chapter.enumerate (Chapter.mk bcid) startindex endindex.

Definition enumerate : M t (list Verse.t) :=
  s <- get startid ;;
  e <- get endid ;;
  if BCVID.eqb s e then
    s <- get startid ;;
    ret [Verse.mk s]
  else
    c <- get (fun self => BCVID.chapter_ID (startid self)) ;;
    startid_chap_index <- lift (int c) ;;
    v <- get (fun self => BCVID.verse_ID (startid self)) ;;
    startid_verse_index <- lift (int v) ;;
    c <- get (fun self => BCVID.chapter_ID (endid self)) ;;
    endid_chap_index <- lift (int c) ;;
    v <- get (fun self => BCVID.verse_ID (endid self)) ;;
    endid_verse_index <- lift (int v) ;;
    if startid_chap_index =? endid_chap_index then
      s <- get startid ;;
      let chap := Chapter.mk (simplify s BCID.t) in
      ret (Chapter.enumerate chap startid_verse_index endid_verse_index)
    else
      s <- get startid ;;
      e <- get endid ;;
      chaprange <- lift (ChapterRange.new (simplify s BCID.t) (simplify e BCID.t)) ;;
      chapenum <- lift (call ChapterRange.enumerate chaprange) ;;
      first <- lift (getitem chapenum 0) ;;
      let firstbcid := Chapter.identifier first in
      let firstchap := Chapter.mk firstbcid in
      let firstverses :=
        get_verses firstbcid startid_verse_index (Chapter.lastverse lastverse_of firstchap) in
      let midbcids := getslice chapenum 1 (-1) in
      let midverses :=
        flat_map (fun chap => Chapter.enumerate chap 1 (Chapter.lastverse lastverse_of chap))
                 midbcids in
      last <- lift (getitem chapenum (-1)) ;;
      let lastbcid := Chapter.identifier last in
      let lastchap := Chapter.mk lastbcid in
      let lastverses := get_verses lastbcid 1 endid_verse_index in
      ret (map (fun v => v) (firstverses ++ midverses ++ lastverses)).

End Canon.

End VerseRange.

(** ** What the specification says the enumerations are *)

(** "Every integer in the inclusive range [a, b], in ascending order", each
    made a chapter-level identifier "by combining the shared book component
    with the zero-padded chapter number (padding width: 3 digits)". *)
Definition chapters_between (book : string) (a b : nat) : list BCID.t :=
  map (fun i => BCID.mk (book ++ pad i 3)%string) (seq a (b + 1 - a)).

(** The chapters strictly between chapter [a] and chapter [b] of a book. *)
Definition middle_chapters (book : string) (a b : nat) : list BCID.t :=
  map (fun i => BCID.mk (book ++ pad i 3)%string) (seq (a + 1) (b - 1 - a)).

(** The verses of chapter [c] with the verse numbers [a] through [b],
    inclusive, in ascending order. *)
Definition verses_of (c : BCID.t) (a b : nat) : list Verse.t :=
  map (fun v => Verse.mk (BCVID.mk (BCID.ID c ++ pad v 3)%string)) (seq a (b + 1 - a)).

(** The chapter number of a chapter. *)
Definition chapter_number (c : Chapter.t) : result nat :=
  int (BCID.chapter_ID (Chapter.identifier c)).

(** [y] is the chapter after [x]: same book, next chapter number, and a
    strictly greater identifier. *)
Definition next_chapter (x y : Chapter.t) : Prop :=
  BCID.ltb (Chapter.identifier x) (Chapter.identifier y) = true /\
  BCID.book_ID (Chapter.identifier x) = BCID.book_ID (Chapter.identifier y) /\
  exists n, chapter_number x = inr n /\ chapter_number y = inr (S n).

(** Strictly ascending and gap-free: each element is followed by the next
    chapter. *)
Fixpoint consecutive (l : list Chapter.t) : Prop :=
  match l with
  | x :: (y :: _) as l' => next_chapter x y /\ consecutive l'
  | _ => True
  end.

(** Every verse of a book, as the pair of its chapter number and its verse
    number: the chapter numbered [c] (any number of three digits) has the
    verses 1 through its last verse number. *)
Definition book_verses (lastverse_of : BCID.t -> nat) (book : string)
  : list (nat * nat) :=
  flat_map (fun c => map (pair c)
                         (seq 1 (lastverse_of (BCID.mk (book ++ pad c 3)%string))))
           (seq 0 1000).

(** Chapter and verse [x] is not after chapter and verse [y]. *)
Definition position_leb (x y : nat * nat) : bool :=
  (fst x <? fst y) || ((fst x =? fst y) && (snd x <=? snd y)).

(** The number of verses of the book from chapter [sc] verse [sv] through
    chapter [ec] verse [ev], both included: the verses of [book_verses] that
    lie between the two. *)
Definition verse_count (lastverse_of : BCID.t -> nat) (book : string)
    (sc sv ec ev : nat) : nat :=
  List.length
    (filter (fun x => position_leb (sc, sv) x && position_leb x (ec, ev))
            (book_verses lastverse_of book)).

(** Both boundary verses exist: each verse number is at least 1 and at most
    the last verse number of its chapter. *)
Definition verses_exist (lastverse_of : BCID.t -> nat) (s e : BCVID.t) : Prop :=
  (exists sv, int (BCVID.verse_ID s) = inr sv /\
              1 <= sv <= lastverse_of (simplify s BCID.t)) /\
  (exists ev, int (BCVID.verse_ID e) = inr ev /\
              1 <= ev <= lastverse_of (simplify e BCID.t)).


(** ** Data for the concrete scenarios *)

(** The last verse numbers of the chapters of Mark (book 41). *)
Definition Mark_lastverse (c : BCID.t) : nat :=
  let table :=
    [("41001", 45); ("41002", 28); ("41003", 35); ("41004", 41);
     ("41005", 43); ("41006", 56); ("41007", 37); ("41008", 38);
     ("41009", 50); ("41010", 52); ("41011", 33); ("41012", 44);
     ("41013", 37); ("41014", 72); ("41015", 47); ("41016", 20)] in
  match find (fun row => (fst row =? BCID.ID c)%string) table with
  | Some row => snd row
  | None => 0
  end.

(** A [BID.__eq__] that accepts a string equal to the identifier's text. *)
Definition ID_eq (s : string) (b : BID.t) : bool := (s =? BID.ID b)%string.


(** ** More of biblelib/words/mappings.py *)

(** [ClearID.__repr__] *)
Definition ClearID_repr : M ClearID.t string :=
  ID <- get ClearID.ID ;;
  ret ("<ClearID: " ++ ID ++ ">")%string.

Module Mapping.

Record t : Type := mk {
  NA1904_ID : string;
  NA1904_Text : string;
  NA27_ID : string;
  NA28_ID : string;
  SBLGNT_ID : string;
  SBLGNT_Text : string;
  MARBLE_ID : string
}.

Definition set_NA1904_ID (v : string) (self : t) : t :=
  mk v (NA1904_Text self) (NA27_ID self) (NA28_ID self) (SBLGNT_ID self)
     (SBLGNT_Text self) (MARBLE_ID self).

(** [dataclasses.asdict(mapping)]: the fields in the order of declaration. *)
Definition asdict (self : t) : list (string * string) :=
  [("NA1904_ID", NA1904_ID self); ("NA1904_Text", NA1904_Text self);
   ("NA27_ID", NA27_ID self); ("NA28_ID", NA28_ID self);
   ("SBLGNT_ID", SBLGNT_ID self); ("SBLGNT_Text", SBLGNT_Text self);
   ("MARBLE_ID", MARBLE_ID self)].

End Mapping.

Module Mappings.

(** [list(Mapping.__dataclass_fields__.keys())] *)
Definition mappingfields : list string :=
  ["NA1904_ID"; "NA1904_Text"; "NA27_ID"; "NA28_ID"; "SBLGNT_ID"; "SBLGNT_Text";
   "MARBLE_ID"].

(** What [_add_prefix] works on.  [self.data] is a list of references to
    [Mapping] objects, and the loop assigns to the objects: [objects] is the
    store of the objects by address, so that one object listed twice is one
    object.  [written] is the rows handed so far to the writer of the output
    file, each the list of its cells; how [csv] spells a row as text is the
    library's matter. *)
Record state : Type := mk {
  objects : nat -> Mapping.t;
  written : list (list string)
}.

Definition set_object (a : nat) (m : Mapping.t) (st : state) : state :=
  mk (fun b => if b =? a then m else objects st b) (written st).

Definition write (row : list string) (st : state) : state :=
  mk (objects st) (written st ++ [row]).

(** [outpath.open("w")]: the file starts empty. *)
Definition truncate (st : state) : state := mk (objects st) [].

(** [rowdict.get(key, "")] *)
Fixpoint dict_get (rowdict : list (string * string)) (key : string) : string :=
  match rowdict with
  | [] => ""
  | (k, v) :: rest => if (k =? key)%string then v else dict_get rest key
  end.

Definition mem (x : string) (l : list string) : bool :=
  existsb (fun y => (y =? x)%string) l.

(** [DictWriter.writeheader()]: the field names are the first row. *)
Definition writeheader (fieldnames : list string) : M state unit :=
  setattr (write fieldnames).

(** [DictWriter.writerow(rowdict)] with the default [extrasaction="raise"]
    and [restval=""]: a key that is no field name is a [ValueError],
    otherwise the cells are the values in the order of the field names. *)
Definition writerow (fieldnames : list string) (rowdict : list (string * string))
  : M state unit :=
  if forallb (fun kv => mem (fst kv) fieldnames) rowdict
  then setattr (write (map (dict_get rowdict) fieldnames))
  else raise ValueError.

(** [for x in l: body(x)] *)
Fixpoint for_each {A : Type} (l : list A) (body : A -> M state unit) : M state unit :=
  match l with
  | [] => ret tt
  | x :: l' => body x ;;; for_each l' body
  end.

(** [Mappings._add_prefix(outfile)] from the moment [outpath.open("w")] has
    returned the file, for the instance whose [self.data] lists the objects
    at the addresses [data]: the file is empty, then the header and the loop.
    Whether the file at [outfile] can be opened is the file system's matter
    (the call raises [OSError] there and nothing below happens); and the
    fields of a [Mapping] hold strings, as the class annotates them. *)
Definition _add_prefix (data : list nat) : M state unit :=
  setattr truncate ;;;
  writeheader mappingfields ;;;
  for_each data (fun mapping =>
    old <- get (fun st => Mapping.NA1904_ID (objects st mapping)) ;;
    m <- get (fun st => objects st mapping) ;;
    setattr (set_object mapping (Mapping.set_NA1904_ID ("n" ++ old) m)) ;;;
    m <- get (fun st => objects st mapping) ;;
    writerow mappingfields (Mapping.asdict m)).

(** The exceptions of the header check of [Mappings.__init__]. *)
Inductive header_error : Type :=
| NoFieldname             (* IndexError: [reader.fieldnames[0]] of an empty list *)
| FieldnameDiscrepancy.   (* AssertionError "Fieldname discrepancy header: ..." *)

(** [s.split(sep)] for a one-character separator. *)
Fixpoint split (sep : ascii) (s : string) : list string :=
  match s with
  | "" => [""]
  | String c s' =>
      if Ascii.eqb c sep then "" :: split sep s'
      else match split sep s' with
           | piece :: rest => String c piece :: rest
           | [] => [String c ""]
           end
  end.

(** The tabulator, [chr(9)]. *)
Definition tab : ascii := ascii_of_nat 9.

(** The header check of [Mappings.__init__], on the field names that the
    [DictReader] has read from the first row of the file:
    [set(reader.fieldnames[0].split(tab))] must have no element outside
    [self.mappingfields].  (A set is empty when the list of its elements is.) *)
Definition check_fieldnames (fieldnames : list string) : header_error + unit :=
  match fieldnames with
  | [] => inl NoFieldname
  | first :: _ =>
      let fieldnameset := split tab first in
      let difference := filter (fun x => negb (mem x mappingfields)) fieldnameset in
      match difference with
      | [] => inr tt
      | _ :: _ => inl FieldnameDiscrepancy
      end
  end.

End Mappings.

(** ** More of biblelib/unit/unitrange.py *)

Module NameRange.

(** What [detect_name_range] raises. *)
Inductive error : Type :=
| Unpack             (* ValueError: [ref1, ref2 = ...] of a list not of length 2 *)
| ComplexRange       (* AssertionError "Can't handle complex range: ..." *)
| InvalidName        (* AssertionError "Invalid name reference: ..." *)
| BookLookup (e : exn).   (* whatever [BOOKS.fromname] raises *)

(** [c in s] for a one-character [c]. *)
Fixpoint contains (c : ascii) (s : string) : bool :=
  match s with
  | "" => false
  | String d s' => Ascii.eqb d c || contains c s'
  end.

(** [s[i:]] *)
Definition str_suffix (i : nat) (s : string) : string :=
  substring i (String.length s - i) s.

Section Books.

(** [BOOKS.nameregexp.match(s)]: [None], or the end of the match at the start
    of [s].  [BOOKS] is an instance of [biblelib.book.Books], whose module is
    outside the files embedded here: a parameter. *)
Variable nameregexp_match : string -> option nat.

(** [BOOKS.fromname(bookname).usfmnumber], as the text that an f-string makes
    of it: a parameter. *)
Variable fromname_usfmnumber : string -> result string.

Definition detect_name_range (ref : string) : error + string :=
  match Mappings.split "-" ref with
  | [ref1; ref2] =>
      if contains "," ref1 || contains "," ref2 then inl ComplexRange
      else
        match nameregexp_match ref1 with
        | None => inl InvalidName
        | Some namematch_end =>
            let bookname := str_prefix namematch_end ref1 in
            let rest := str_suffix (namematch_end + 1) ref1 in
            match fromname_usfmnumber bookname with
            | inl e => inl (BookLookup e)
            | inr usfmbook =>
                if contains ":" ref1 then inr (usfmbook ++ ", verserange")%string
                else inr (usfmbook ++ ", chapterrange")%string
            end
        end
  | _ => inl Unpack
  end.

End Books.

End NameRange.

(** ** Words for the statements about [_add_prefix] and [split] *)

(** [m] with ["n"] put before its [NA1904_ID]. *)
Definition with_prefix (m : Mapping.t) : Mapping.t :=
  Mapping.set_NA1904_ID ("n" ++ Mapping.NA1904_ID m) m.

(** The cells of the row of [m], in the order of the columns. *)
Definition row_of (m : Mapping.t) : list string :=
  [Mapping.NA1904_ID m; Mapping.NA1904_Text m; Mapping.NA27_ID m; Mapping.NA28_ID m;
   Mapping.SBLGNT_ID m; Mapping.SBLGNT_Text m; Mapping.MARBLE_ID m].

(** ["n" * k] *)
Fixpoint ns (k : nat) : string :=
  match k with
  | 0 => ""
  | S k' => String "n" (ns k')
  end.

(** [sep.join(pieces)] for a one-character separator. *)
Fixpoint join (sep : ascii) (pieces : list string) : string :=
  match pieces with
  | [] => ""
  | [piece] => piece
  | piece :: rest => (piece ++ String sep (join sep rest))%string
  end.

(** How often the character [c] occurs in [s]. *)
Fixpoint count_char (c : ascii) (s : string) : nat :=
  match s with
  | "" => 0
  | String d s' => (if Ascii.eqb d c then 1 else 0) + count_char c s'
  end.

(** Two [Mapping] objects, at the addresses 0 and 1 (every other address
    holds the second), and an output file that holds one stale row. *)
Definition example_mappings : Mappings.state :=
  Mappings.mk
    (fun a =>
       if a =? 0
       then Mapping.mk "43001001005" "Logos," "43001001005" "43001001005"
                       "43001001005" "logos," "04300100100010"
       else Mapping.mk "43001001006" "kai" "43001001006" "43001001006"
                       "43001001006" "kai" "04300100100012")
    [["stale"]].

(** A table of book names for [detect_name_range]: a name matches when the
    reference starts with ["Mark"]; Mark is book 41. *)
Definition example_match (s : string) : option nat :=
  if String.prefix "Mark" s then Some 4 else None.

Definition example_usfmnumber (name : string) : result string :=
  if (name =? "Mark")%string then inr "41" else inl ValueError.

(** ** Words for the statements about the enumerated verses *)

(** The verse numbered [verse] of the chapter numbered [chapter] of [book]. *)
Definition verse_at (book : string) (chapter verse : nat) : Verse.t :=
  Verse.mk (BCVID.mk ((book ++ pad chapter 3) ++ pad verse 3)).

(** [x] comes strictly before [y] in the order of the identifiers. *)
Definition verse_lt (x y : Verse.t) : Prop :=
  (BCVID.ID (Verse.identifier x) <? BCVID.ID (Verse.identifier y))%string = true.

(** [startid <= x <= endid] in the order of the identifiers. *)
Definition verse_within (startid endid : BCVID.t) (x : Verse.t) : Prop :=
  BCVID.leb startid (Verse.identifier x) = true /\
  BCVID.leb (Verse.identifier x) endid = true.

(** * Properties *)

(** Unfolds the monad's operations in a method body applied to [self]. *)
Ltac run_method :=
  unfold construct, call, bind, get, getattr, setattr, assert_, lift, ret, raise;
  cbv beta.

(** ** The monad *)

Lemma readonly_ret {S A} (a : A) : readonly (@ret S A a).
Proof. intro self. reflexivity. Qed.

Lemma readonly_get {S A} (f : S -> A) : readonly (get f).
Proof. intro self. reflexivity. Qed.

Lemma readonly_lift {S A} (r : result A) : readonly (@lift S A r).
Proof. intro self. reflexivity. Qed.

Lemma readonly_bind {S A B} (m : M S A) (k : A -> M S B) :
  readonly m -> (forall a, readonly (k a)) -> readonly (bind m k).
Proof.
  intros Hm Hk self. unfold bind.
  specialize (Hm self). destruct (m self) as [[e | a] self']; simpl in Hm; subst self'.
  - reflexivity.
  - apply Hk.
Qed.

(** ** Strings: slices *)

Lemma str_app_nil_r s : (s ++ "")%string = s.
Proof. induction s as [| c s IH]; simpl; [reflexivity | now rewrite IH]. Qed.

Lemma str_app_assoc s t u : ((s ++ t) ++ u)%string = (s ++ t ++ u)%string.
Proof. induction s as [| c s IH]; simpl; [reflexivity | now rewrite IH]. Qed.

Lemma str_app_length s t :
  String.length (s ++ t) = String.length s + String.length t.
Proof. induction s as [| c s IH]; simpl; [reflexivity | now rewrite IH]. Qed.

Lemma substring_empty n m : substring n m "" = "".
Proof. destruct n, m; reflexivity. Qed.

Lemma substring_split s : forall n m k,
  substring n (m + k) s = (substring n m s ++ substring (n + m) k s)%string.
Proof.
  induction s as [| c s IH]; intros n m k.
  - now rewrite !substring_empty.
  - destruct n as [| n].
    + destruct m as [| m]; simpl.
      * reflexivity.
      * f_equal. apply (IH 0 m k).
    + simpl. apply IH.
Qed.

Lemma substring_whole s : substring 0 (String.length s) s = s.
Proof. induction s as [| c s IH]; simpl; [reflexivity | now rewrite IH]. Qed.

Lemma substring_get s : forall n c,
  String.get n s = Some c -> substring n 1 s = String c "".
Proof.
  induction s as [| a s IH]; intros n c H.
  - destruct n; discriminate.
  - destruct n as [| n]; simpl in *.
    + injection H as ->. now destruct s.
    + now apply IH.
Qed.

Lemma get_in_range s : forall n, n < String.length s -> exists c, String.get n s = Some c.
Proof.
  induction s as [| a s IH]; intros n H; simpl in H.
  - lia.
  - destruct n as [| n]; simpl.
    + now exists a.
    + apply IH. lia.
Qed.

Lemma length_substring s : forall n m,
  n + m <= String.length s -> String.length (substring n m s) = m.
Proof.
  induction s as [| a s IH]; intros n m H; simpl in H.
  - assert (n = 0 /\ m = 0) as [-> ->] by lia. reflexivity.
  - destruct n as [| n].
    + destruct m as [| m]; simpl; [reflexivity |]. f_equal. apply IH. simpl. lia.
    + simpl. apply IH. lia.
Qed.

(** ** ClearID *)

Lemma ClearID_new_11 s :
  String.length s = 11 ->
  ClearID.new s =
  inr (ClearID.mk s (Some (str_prefix 2 s)) (Some (str_slice 2 5 s))
         (Some (str_slice 5 8 s)) (Some (str_slice 8 11 s)) (Some "")).
Proof.
  intro H. unfold ClearID.new, ClearID.post_init. run_method.
  cbn [ClearID.ID ClearID.init]. rewrite H. cbn.
  rewrite H. reflexivity.
Qed.

Lemma ClearID_new_12 s :
  String.length s = 12 ->
  exists c, String.get 11 s = Some c /\
  ClearID.new s =
  inr (ClearID.mk s (Some (str_prefix 2 s)) (Some (str_slice 2 5 s))
         (Some (str_slice 5 8 s)) (Some (str_slice 8 11 s)) (Some (String c ""))).
Proof.
  intro H. destruct (get_in_range s 11) as [c Hc]; [lia |].
  exists c. split; [exact Hc |].
  unfold ClearID.new, ClearID.post_init, str_getitem. run_method.
  cbn [ClearID.ID ClearID.init]. rewrite H. cbn.
  rewrite H. cbn. rewrite Hc. reflexivity.
Qed.

Lemma ClearID_new_invalid s :
  String.length s <> 11 -> String.length s <> 12 ->
  ClearID.new s = inl (AssertionError InvalidLength).
Proof.
  intros H1 H2.
  assert (E : (String.length s <=? 12) && (11 <=? String.length s) = false).
  { apply andb_false_iff. rewrite !Nat.leb_gt. lia. }
  unfold ClearID.new, ClearID.post_init. run_method.
  cbn [ClearID.ID ClearID.init]. rewrite E. reflexivity.
Qed.

Lemma slices_11 s :
  (str_prefix 2 s ++ str_slice 2 5 s ++ str_slice 5 8 s ++ str_slice 8 11 s)%string
  = substring 0 11 s.
Proof.
  unfold str_prefix, str_slice. cbn [Nat.sub].
  change 11 with (2 + (3 + (3 + 3))).
  rewrite (substring_split s 0 2), (substring_split s (0 + 2) 3),
    (substring_split s (0 + 2 + 3) 3).
  reflexivity.
Qed.

Lemma slices_12 s :
  (str_prefix 2 s ++ str_slice 2 5 s ++ str_slice 5 8 s ++ str_slice 8 11 s
     ++ substring 11 1 s)%string
  = substring 0 12 s.
Proof.
  unfold str_prefix, str_slice. cbn [Nat.sub].
  change 12 with (2 + (3 + (3 + (3 + 1)))).
  rewrite (substring_split s 0 2), (substring_split s (0 + 2) 3),
    (substring_split s (0 + 2 + 3) 3), (substring_split s (0 + 2 + 3 + 3) 3).
  reflexivity.
Qed.

(** C9. For every string [s] of length 11 or 12, [ClearID(s)] is constructed
    and partitions [s] without loss: [book_ID + chapter_ID + verse_ID +
    word_ID + part_ID] is [s] again, where [part_ID] is the empty string when
    the length is 11 and the 12th character [s[11]] when it is 12. *)
Theorem ClearID_partition (s : string) :
  String.length s = 11 \/ String.length s = 12 ->
  exists c p,
    ClearID.new s = inr c /\
    call ClearID.components c = inr s /\
    ClearID.part_ID c = Some p /\
    (String.length s = 11 -> p = "") /\
    (String.length s = 12 -> str_getitem s 11 = inr p).
Proof.
  intros [H | H].
  - eexists; exists "". split; [apply ClearID_new_11, H |].
    split; [| split; [reflexivity | split; [reflexivity | intro; lia]]].
    unfold ClearID.components. run_method. cbn. f_equal.
    rewrite str_app_nil_r, slices_11, <- H. apply substring_whole.
  - destruct (ClearID_new_12 s H) as (c & Hc & Hnew).
    eexists; exists (String c ""). split; [exact Hnew |].
    split; [| split; [reflexivity | split; [intro; lia |]]].
    + unfold ClearID.components. run_method. cbn. f_equal.
      rewrite <- (substring_get s 11 c Hc), slices_12, <- H.
      apply substring_whole.
    + intros _. unfold str_getitem. now rewrite Hc.
Qed.

Lemma ClearID_partition_witness :
  String.length "43001001005" = 11 /\
  exists c p,
    ClearID.new "43001001005" = inr c /\
    call ClearID.components c = inr "43001001005" /\
    ClearID.part_ID c = Some p /\
    (String.length "43001001005" = 11 -> p = "") /\
    (String.length "43001001005" = 12 -> str_getitem "43001001005" 11 = inr p).
Proof.
  split; [reflexivity |].
  apply (ClearID_partition "43001001005"). left. reflexivity.
Defined.

(** C10. [ClearID(s)] raises the [AssertionError] of its length check exactly
    when the length of [s] is neither 11 nor 12; for the lengths 11 and 12
    the construction succeeds. *)
Theorem ClearID_assertion_iff (s : string) :
  (ClearID.new s = inl (AssertionError InvalidLength)
   <-> String.length s <> 11 /\ String.length s <> 12) /\
  ((exists e, ClearID.new s = inl e)
   <-> String.length s <> 11 /\ String.length s <> 12) /\
  ((exists c, ClearID.new s = inr c)
   <-> String.length s = 11 \/ String.length s = 12).
Proof.
  assert (Hcases :
    (String.length s <> 11 /\ String.length s <> 12 /\
     ClearID.new s = inl (AssertionError InvalidLength)) \/
    ((String.length s = 11 \/ String.length s = 12) /\
     exists c, ClearID.new s = inr c)).
  { destruct (Nat.eq_dec (String.length s) 11) as [H11 | H11];
      [| destruct (Nat.eq_dec (String.length s) 12) as [H12 | H12]].
    - right. split; [now left |]. eexists. apply ClearID_new_11, H11.
    - right. split; [now right |].
      destruct (ClearID_new_12 s H12) as (c & _ & Hnew). eexists. exact Hnew.
    - left. auto using ClearID_new_invalid. }
  destruct Hcases as [(H11 & H12 & Hnew) | (Hlen & c & Hnew)]; rewrite Hnew.
  - split; [tauto |]. split.
    + split; [tauto | eauto].
    + split; [intros [c Hc]; discriminate | lia].
  - split; [| split].
    + split; [discriminate | lia].
    + split; [intros [e He]; discriminate | lia].
    + split; [tauto | eauto].
Qed.

(** ** Digit strings: [int], [pad] and the order of the textual encoding *)

Lemma is_digit_bounds c :
  is_digit c = true -> 48 <= nat_of_ascii c <= 57.
Proof.
  unfold is_digit. intro H. apply andb_prop in H as [H1 H2].
  apply Nat.leb_le in H1, H2. lia.
Qed.

Lemma digit_val_lt c : is_digit c = true -> digit_val c < 10.
Proof. intro H. apply is_digit_bounds in H. unfold digit_val. lia. Qed.

Lemma ascii_compare_digits c d :
  is_digit c = true -> is_digit d = true ->
  Ascii.compare c d = Nat.compare (digit_val c) (digit_val d).
Proof.
  intros Hc Hd. apply is_digit_bounds in Hc, Hd.
  unfold Ascii.compare, digit_val. rewrite N2Nat.inj_compare.
  fold (nat_of_ascii c) (nat_of_ascii d).
  destruct (Nat.compare_spec (nat_of_ascii c) (nat_of_ascii d)) as [E | E | E];
    symmetry.
  - apply Nat.compare_eq_iff. lia.
  - apply Nat.compare_lt_iff. lia.
  - apply Nat.compare_gt_iff. lia.
Qed.

Lemma all_digits_app s t :
  all_digits (s ++ t) = all_digits s && all_digits t.
Proof.
  induction s as [| c s IH]; simpl; [reflexivity |].
  now rewrite IH, andb_assoc.
Qed.

Lemma all_digits_substring s : forall n m,
  all_digits s = true -> all_digits (substring n m s) = true.
Proof.
  induction s as [| c s IH]; intros n m H.
  - now rewrite substring_empty.
  - simpl in H. apply andb_prop in H as [Hc Hs].
    destruct n as [| n]; simpl.
    + destruct m as [| m]; simpl; [reflexivity |].
      now rewrite Hc, (IH 0 m Hs).
    + now apply IH.
Qed.

Lemma int_from_value s : forall acc,
  all_digits s = true ->
  int_from acc s = inr (acc * 10 ^ String.length s + digits_value s).
Proof.
  induction s as [| c s IH]; intros acc H; simpl.
  - f_equal. lia.
  - simpl in H. apply andb_prop in H as [Hc Hs].
    rewrite Hc, (IH _ Hs). f_equal. lia.
Qed.

Lemma int_value s :
  s <> "" -> all_digits s = true -> int s = inr (digits_value s).
Proof.
  intros Hne H. unfold int. destruct s as [| c s]; [congruence |].
  now rewrite (int_from_value _ 0 H).
Qed.

Lemma digits_value_lt s :
  all_digits s = true -> digits_value s < 10 ^ String.length s.
Proof.
  induction s as [| c s IH]; intro H; simpl.
  - lia.
  - simpl in H. apply andb_prop in H as [Hc Hs].
    specialize (IH Hs). apply digit_val_lt in Hc. nia.
Qed.

(** On digit strings of one width the lexicographic order of the text is the
    order of the numbers. *)
Lemma compare_digits s : forall t,
  String.length s = String.length t ->
  all_digits s = true -> all_digits t = true ->
  String.compare s t = Nat.compare (digits_value s) (digits_value t).
Proof.
  induction s as [| c s IH]; intros [| d t] Hlen Hs Ht; simpl in Hlen;
    try discriminate.
  - reflexivity.
  - simpl in Hs, Ht.
    apply andb_prop in Hs as [Hc Hs]; apply andb_prop in Ht as [Hd Ht].
    injection Hlen as Hlen.
    pose proof (digits_value_lt s Hs) as Bs.
    pose proof (digits_value_lt t Ht) as Bt.
    simpl. rewrite (ascii_compare_digits c d Hc Hd), (IH t Hlen Hs Ht), Hlen.
    rewrite Hlen in Bs.
    set (p := 10 ^ String.length t) in *.
    destruct (Nat.compare_spec (digit_val c) (digit_val d)) as [E | E | E].
    + rewrite E.
      destruct (Nat.compare_spec (digits_value s) (digits_value t)) as [F | F | F];
        symmetry.
      * apply Nat.compare_eq_iff. lia.
      * apply Nat.compare_lt_iff. lia.
      * apply Nat.compare_gt_iff. lia.
    + symmetry. apply Nat.compare_lt_iff. nia.
    + symmetry. apply Nat.compare_gt_iff. nia.
Qed.

Lemma digits_value_inj s t :
  String.length s = String.length t ->
  all_digits s = true -> all_digits t = true ->
  digits_value s = digits_value t -> s = t.
Proof.
  intros Hlen Hs Ht Hv. apply String.compare_eq_iff.
  rewrite (compare_digits s t Hlen Hs Ht). now apply Nat.compare_eq_iff.
Qed.

(** Comparing two texts with equally long heads: the heads decide, then the
    tails. *)
Lemma compare_app a : forall b x y,
  String.length a = String.length b ->
  String.compare (a ++ x) (b ++ y) =
  match String.compare a b with
  | Eq => String.compare x y
  | ne => ne
  end.
Proof.
  induction a as [| c a IH]; intros [| d b] x y Hlen; simpl in Hlen;
    try discriminate.
  - reflexivity.
  - injection Hlen as Hlen. simpl.
    destruct (Ascii.compare c d); [apply IH, Hlen | reflexivity | reflexivity].
Qed.

Lemma compare_refl s : String.compare s s = Eq.
Proof.
  induction s as [| c s IH]; simpl; [reflexivity |].
  unfold Ascii.compare. now rewrite N.compare_refl.
Qed.

(** [pad(n, 3)] for the numbers that fit three digits, by enumeration. *)
Lemma pad3_table :
  forallb (fun n => (String.length (pad n 3) =? 3) && all_digits (pad n 3)
                    && (digits_value (pad n 3) =? n))
          (seq 0 1000) = true.
Proof. vm_compute. reflexivity. Qed.

Lemma pad3_spec n :
  n < 1000 ->
  String.length (pad n 3) = 3 /\ all_digits (pad n 3) = true /\
  digits_value (pad n 3) = n.
Proof.
  intro H. pose proof pad3_table as T.
  rewrite forallb_forall in T. specialize (T n).
  assert (Hin : In n (seq 0 1000)) by (apply in_seq; lia).
  apply T in Hin. apply andb_prop in Hin as [Hin H3].
  apply andb_prop in Hin as [H1 H2].
  apply Nat.eqb_eq in H1, H3. auto.
Qed.

Lemma pad3_value s :
  String.length s = 3 -> all_digits s = true -> pad (digits_value s) 3 = s.
Proof.
  intros Hlen Hs.
  pose proof (digits_value_lt s Hs) as B. rewrite Hlen in B.
  change (10 ^ 3) with 1000 in B.
  destruct (pad3_spec _ B) as (L & D & V).
  apply digits_value_inj; congruence.
Qed.

Lemma leb_digits s t :
  String.length s = String.length t ->
  all_digits s = true -> all_digits t = true ->
  (s <=? t)%string = (digits_value s <=? digits_value t).
Proof.
  intros Hlen Hs Ht. unfold String.leb.
  rewrite (compare_digits s t Hlen Hs Ht).
  destruct (Nat.compare_spec (digits_value s) (digits_value t)) as [E | E | E];
    symmetry; [apply Nat.leb_le | apply Nat.leb_le | apply Nat.leb_gt]; lia.
Qed.

Lemma ltb_digits s t :
  String.length s = String.length t ->
  all_digits s = true -> all_digits t = true ->
  (s <? t)%string = (digits_value s <? digits_value t).
Proof.
  intros Hlen Hs Ht. unfold String.ltb.
  rewrite (compare_digits s t Hlen Hs Ht).
  destruct (Nat.compare_spec (digits_value s) (digits_value t)) as [E | E | E];
    symmetry; [apply Nat.ltb_ge | apply Nat.ltb_lt | apply Nat.ltb_ge]; lia.
Qed.

Lemma leb_app_same a x y :
  (a ++ x <=? a ++ y)%string = (x <=? y)%string.
Proof.
  unfold String.leb. now rewrite (compare_app a a x y eq_refl), compare_refl.
Qed.

Lemma ltb_app_same a x y :
  (a ++ x <? a ++ y)%string = (x <? y)%string.
Proof.
  unfold String.ltb. now rewrite (compare_app a a x y eq_refl), compare_refl.
Qed.

Lemma str_app_inv_head a x y : (a ++ x)%string = (a ++ y)%string -> x = y.
Proof. induction a as [| c a IH]; simpl; intro H; [exact H | injection H; auto]. Qed.

(** ** Python lists *)

Lemma getitem_first {A} (x : A) l : getitem (x :: l) 0 = inr x.
Proof. reflexivity. Qed.

Lemma getitem_last {A} l (y : A) : getitem (l ++ [y]) (-1) = inr y.
Proof.
  unfold getitem, norm_index. rewrite length_app. cbn [List.length].
  change (-1 <? 0)%Z with true. cbv iota.
  replace (-1 + Z.of_nat (List.length l + 1))%Z with (Z.of_nat (List.length l)) by lia.
  destruct (Z.ltb_spec (Z.of_nat (List.length l)) 0) as [H | H]; [lia |].
  rewrite Nat2Z.id, nth_error_app2, Nat.sub_diag by lia. reflexivity.
Qed.

Lemma getslice_middle {A} (x : A) mid y :
  getslice (x :: mid ++ [y]) 1 (-1) = mid.
Proof.
  unfold getslice, norm_index. cbn [List.length]. rewrite length_app.
  cbn [List.length]. change (1 <? 0)%Z with false. change (-1 <? 0)%Z with true.
  cbv iota.
  replace (Z.to_nat (Z.max 0 (Z.min (Z.of_nat (S (List.length mid + 1))) 1)))
    with 1 by lia.
  replace (Z.to_nat (Z.max 0 (Z.min (Z.of_nat (S (List.length mid + 1)))
                                    (-1 + Z.of_nat (S (List.length mid + 1))))))
    with (S (List.length mid)) by lia.
  cbn [skipn]. replace (S (List.length mid) - 1) with (List.length mid + 0) by lia.
  rewrite firstn_app_2. cbn. apply app_nil_r.
Qed.

Lemma list_comprehension_total {A B} (f : A -> result B) (g : A -> B) l :
  (forall x, In x l -> f x = inr (g x)) ->
  list_comprehension f l = inr (map g l).
Proof.
  induction l as [| x l IH]; intro H; simpl.
  - reflexivity.
  - rewrite (H x (or_introl eq_refl)), IH; [reflexivity |].
    intros y Hy. apply H. now right.
Qed.

(** [a, a+1, ..., b] with [a < b]: the first, those strictly between, the last. *)
Lemma seq_first_middle_last a b :
  a < b -> seq a (b + 1 - a) = a :: seq (a + 1) (b - 1 - a) ++ [b].
Proof.
  intro H. replace (b + 1 - a) with (S (S (b - 1 - a))) by lia.
  rewrite seq_S. cbn [seq app]. f_equal.
  replace (a + S (b - 1 - a)) with b by lia.
  now rewrite Nat.add_1_r.
Qed.

(** ** Canonical identifiers *)

Lemma length_2 s :
  String.length s = 2 -> exists a b, s = String a (String b "").
Proof.
  destruct s as [| a [| b [| c s]]]; try discriminate. intros _. eauto.
Qed.

Lemma length_3 s :
  String.length s = 3 -> exists a b c, s = String a (String b (String c "")).
Proof.
  destruct s as [| a [| b [| c [| d s]]]]; try discriminate. intros _. eauto.
Qed.

(** A well-formed chapter identifier is a two-digit book and a three-digit
    chapter. *)
Lemma BCID_decompose x :
  BCID.wf x = true ->
  exists b c,
    x = BCID.mk (b ++ c) /\
    String.length b = 2 /\ String.length c = 3 /\
    all_digits b = true /\ all_digits c = true.
Proof.
  destruct x as [s]. unfold BCID.wf. cbn [BCID.ID]. intro H.
  apply andb_prop in H as [Hlen Hd]. apply Nat.eqb_eq in Hlen.
  exists (substring 0 2 s), (substring 2 3 s).
  split; [| repeat split].
  - f_equal. pose proof (substring_split s 0 2 3) as E.
    cbn [Nat.add] in E. rewrite <- E, <- Hlen.
    symmetry. apply substring_whole.
  - apply length_substring. lia.
  - apply length_substring. lia.
  - now apply all_digits_substring.
  - now apply all_digits_substring.
Qed.

(** A well-formed verse identifier is a book, a chapter and a three-digit
    verse. *)
Lemma BCVID_decompose x :
  BCVID.wf x = true ->
  exists b c v,
    x = BCVID.mk (b ++ c ++ v) /\
    String.length b = 2 /\ String.length c = 3 /\ String.length v = 3 /\
    all_digits b = true /\ all_digits c = true /\ all_digits v = true.
Proof.
  destruct x as [s]. unfold BCVID.wf. cbn [BCVID.ID]. intro H.
  apply andb_prop in H as [Hlen Hd]. apply Nat.eqb_eq in Hlen.
  exists (substring 0 2 s), (substring 2 3 s), (substring 5 3 s).
  split; [| repeat split].
  - f_equal. pose proof (substring_split s 2 3 3) as E1.
    pose proof (substring_split s 0 2 (3 + 3)) as E2.
    cbn [Nat.add] in E1, E2. rewrite <- E1, <- E2, <- Hlen.
    symmetry. apply substring_whole.
  - apply length_substring. lia.
  - apply length_substring. lia.
  - apply length_substring. lia.
  - now apply all_digits_substring.
  - now apply all_digits_substring.
  - now apply all_digits_substring.
Qed.

Lemma BCID_slices b c :
  String.length b = 2 -> String.length c = 3 ->
  str_prefix 2 (b ++ c) = b /\ str_slice 2 5 (b ++ c) = c.
Proof.
  intros Hb Hc.
  destruct (length_2 b Hb) as (b1 & b2 & ->).
  destruct (length_3 c Hc) as (c1 & c2 & c3 & ->).
  split; reflexivity.
Qed.

Lemma BCVID_slices b c v :
  String.length b = 2 -> String.length c = 3 -> String.length v = 3 ->
  str_prefix 2 (b ++ c ++ v) = b /\ str_slice 2 5 (b ++ c ++ v) = c /\
  str_slice 5 8 (b ++ c ++ v) = v /\ str_prefix 5 (b ++ c ++ v) = (b ++ c)%string.
Proof.
  intros Hb Hc Hv.
  destruct (length_2 b Hb) as (b1 & b2 & ->).
  destruct (length_3 c Hc) as (c1 & c2 & c3 & ->).
  destruct (length_3 v Hv) as (v1 & v2 & v3 & ->).
  repeat split; reflexivity.
Qed.

Lemma pad3_int n : n < 1000 -> int (pad n 3) = inr n.
Proof.
  intro H. destruct (pad3_spec n H) as (L & D & V).
  rewrite int_value, V; auto. intros E. rewrite E in L. discriminate.
Qed.

Lemma digits3_int c :
  String.length c = 3 -> all_digits c = true ->
  int c = inr (digits_value c) /\ digits_value c < 1000.
Proof.
  intros L D. split.
  - apply int_value; [| exact D]. intros E. rewrite E in L. discriminate.
  - pose proof (digits_value_lt c D) as B. now rewrite L in B.
Qed.

(** ** ChapterRange *)

Lemma ChapterRange_new_spec s e :
  ChapterRange.new s e =
  if BID.eqb (simplify s BID.t) (simplify e BID.t)
  then if BCID.leb s e then inr (ChapterRange.mk s e)
       else inl (AssertionError MustPrecede)
  else inl (AssertionError SameBook).
Proof.
  unfold ChapterRange.new, ChapterRange.post_init. run_method.
  cbn [ChapterRange.startid ChapterRange.endid].
  destruct (BID.eqb _ _); [| reflexivity].
  cbn [ChapterRange.startid ChapterRange.endid].
  destruct (BCID.leb s e); reflexivity.
Qed.

Lemma chapter_of_total b i :
  String.length b = 2 -> all_digits b = true -> i < 1000 ->
  ChapterRange.chapter_of b i = inr (Chapter.mk (BCID.mk (b ++ pad i 3))).
Proof.
  intros Lb Db Hi. destruct (pad3_spec i Hi) as (L & D & _).
  unfold ChapterRange.chapter_of, BCID.new.
  rewrite str_app_length, Lb, L, all_digits_app, Db, D. reflexivity.
Qed.

(** The enumeration of a range over one book, from chapter text [c1] to
    chapter text [c2]. *)
Lemma ChapterRange_enumerate_run b c1 c2 :
  String.length b = 2 -> all_digits b = true ->
  String.length c1 = 3 -> all_digits c1 = true ->
  String.length c2 = 3 -> all_digits c2 = true ->
  digits_value c1 <= digits_value c2 ->
  let self := ChapterRange.mk (BCID.mk (b ++ c1)) (BCID.mk (b ++ c2)) in
  ChapterRange.enumerate self =
  (inr (map Chapter.mk (chapters_between b (digits_value c1) (digits_value c2))),
   self).
Proof.
  intros Lb Db L1 D1 L2 D2 Hle self.
  destruct (BCID_slices b c1 Lb L1) as (Pb1 & Pc1).
  destruct (BCID_slices b c2 Lb L2) as (_ & Pc2).
  destruct (digits3_int c1 L1 D1) as (I1 & B1).
  destruct (digits3_int c2 L2 D2) as (I2 & B2).
  subst self. unfold ChapterRange.enumerate, chapters_between. run_method.
  cbn [ChapterRange.startid ChapterRange.endid].
  unfold BCID.eqb, BCID.book_ID, BCID.chapter_ID. cbn [BCID.ID].
  destruct (String.eqb_spec (b ++ c1) (b ++ c2)) as [E | E].
  - apply str_app_inv_head in E. subst c2.
    cbn [ChapterRange.startid ChapterRange.endid BCID.ID].
    replace (digits_value c1 + 1 - digits_value c1) with 1 by lia.
    cbn [seq map]. now rewrite (pad3_value c1 L1 D1).
  - cbn [ChapterRange.startid ChapterRange.endid BCID.ID].
    rewrite Pb1, Pc1, Pc2, I1, I2. unfold range.
    rewrite (list_comprehension_total _
               (fun i => Chapter.mk (BCID.mk (b ++ pad i 3)))).
    + now rewrite map_map.
    + intros i Hi. apply in_seq in Hi. apply chapter_of_total; auto. lia.
Qed.

Lemma ChapterRange_new_inv s e cr :
  ChapterRange.new s e = inr cr ->
  cr = ChapterRange.mk s e /\
  BID.eqb (simplify s BID.t) (simplify e BID.t) = true /\ BCID.leb s e = true.
Proof.
  rewrite ChapterRange_new_spec.
  destruct (BID.eqb _ _); [| discriminate].
  destruct (BCID.leb s e); [| discriminate].
  intro H. injection H as <-. auto.
Qed.

(** A validly constructed chapter range: one book, chapter numbers in order. *)
Lemma ChapterRange_valid s e cr :
  BCID.wf s = true -> BCID.wf e = true ->
  ChapterRange.new s e = inr cr ->
  exists b c1 c2,
    s = BCID.mk (b ++ c1) /\ e = BCID.mk (b ++ c2) /\
    cr = ChapterRange.mk s e /\
    String.length b = 2 /\ all_digits b = true /\
    String.length c1 = 3 /\ all_digits c1 = true /\
    String.length c2 = 3 /\ all_digits c2 = true /\
    digits_value c1 <= digits_value c2.
Proof.
  intros Ws We Hnew.
  destruct (BCID_decompose s Ws) as (b & c1 & -> & Lb & L1 & Db & D1).
  destruct (BCID_decompose e We) as (b' & c2 & -> & Lb' & L2 & Db' & D2).
  apply ChapterRange_new_inv in Hnew as (-> & Hbook & Hle).
  unfold BID.eqb, simplify, simplify_to, simplify_BCID_BID in Hbook.
  cbn [BID.ID BCID.ID] in Hbook.
  destruct (BCID_slices b c1 Lb L1) as (Pb & _).
  destruct (BCID_slices b' c2 Lb' L2) as (Pb' & _).
  rewrite Pb, Pb' in Hbook. apply String.eqb_eq in Hbook. subst b'.
  unfold BCID.leb in Hle. cbn [BCID.ID] in Hle.
  rewrite leb_app_same, leb_digits in Hle by congruence.
  apply Nat.leb_le in Hle.
  exists b, c1, c2. repeat split; auto.
Qed.

Lemma next_chapter_pad b i :
  String.length b = 2 -> S i < 1000 ->
  next_chapter (Chapter.mk (BCID.mk (b ++ pad i 3)))
               (Chapter.mk (BCID.mk (b ++ pad (S i) 3))).
Proof.
  intros Lb Hi.
  destruct (pad3_spec i) as (L & D & V); [lia |].
  destruct (pad3_spec (S i) Hi) as (L' & D' & V').
  destruct (BCID_slices b (pad i 3) Lb L) as (Pb & Pc).
  destruct (BCID_slices b (pad (S i) 3) Lb L') as (Pb' & Pc').
  unfold next_chapter, chapter_number, BCID.ltb, BCID.book_ID, BCID.chapter_ID.
  cbn [Chapter.identifier Chapter.inst BCID.ID].
  rewrite Pb, Pb', Pc, Pc'. split; [| split].
  - rewrite ltb_app_same, ltb_digits, V, V' by congruence.
    apply Nat.ltb_lt. lia.
  - reflexivity.
  - exists i. split; apply pad3_int; lia.
Qed.

Lemma consecutive_pad b :
  String.length b = 2 ->
  forall n a, a + n <= 1000 ->
  consecutive (map Chapter.mk
                 (map (fun i => BCID.mk (b ++ pad i 3)) (seq a n))).
Proof.
  intros Lb n. induction n as [| n IH]; intros a H.
  - exact I.
  - destruct n as [| n].
    + exact I.
    + specialize (IH (S a)). cbn [seq map consecutive] in *. split.
      * apply next_chapter_pad; [exact Lb | lia].
      * apply IH. lia.
Qed.

(** C2. For a validly constructed [ChapterRange], [enumerate()] returns the
    chapters of the shared book with the chapter numbers [a, a+1, ..., b]
    ([a], [b] the chapter numbers of [startid] and [endid]), each identifier
    the book followed by the number zero-padded to width 3; the sequence is
    strictly ascending and gap-free, its first element is the chapter of
    [startid] and its last the chapter of [endid]. *)
Theorem ChapterRange_enumerate_ascending (s e : BCID.t) (cr : ChapterRange.t) :
  BCID.wf s = true -> BCID.wf e = true ->
  ChapterRange.new s e = inr cr ->
  exists l a b,
    call ChapterRange.enumerate cr = inr l /\
    int (BCID.chapter_ID s) = inr a /\ int (BCID.chapter_ID e) = inr b /\
    a <= b /\
    map Chapter.identifier l = chapters_between (BCID.book_ID s) a b /\
    consecutive l /\
    getitem l 0 = inr (Chapter.mk s) /\
    getitem l (-1) = inr (Chapter.mk e).
Proof.
  intros Ws We Hnew.
  destruct (ChapterRange_valid s e cr Ws We Hnew)
    as (b & c1 & c2 & -> & -> & -> & Lb & Db & L1 & D1 & L2 & D2 & Hle).
  destruct (BCID_slices b c1 Lb L1) as (Pb1 & Pc1).
  destruct (BCID_slices b c2 Lb L2) as (_ & Pc2).
  destruct (digits3_int c1 L1 D1) as (I1 & B1).
  destruct (digits3_int c2 L2 D2) as (I2 & B2).
  exists (map Chapter.mk (chapters_between b (digits_value c1) (digits_value c2))),
    (digits_value c1), (digits_value c2).
  unfold call. rewrite (ChapterRange_enumerate_run b c1 c2) by assumption.
  unfold BCID.chapter_ID, BCID.book_ID. cbn [BCID.ID fst].
  rewrite Pb1, Pc1, Pc2.
  split; [reflexivity |]. split; [exact I1 |]. split; [exact I2 |].
  split; [exact Hle |]. split; [| split; [| split]].
  - rewrite map_map. cbn [Chapter.identifier Chapter.inst]. apply map_id.
  - apply consecutive_pad; [exact Lb | lia].
  - unfold chapters_between.
    replace (digits_value c2 + 1 - digits_value c1)
      with (S (digits_value c2 - digits_value c1)) by lia.
    cbn [seq map]. rewrite getitem_first, (pad3_value c1 L1 D1). reflexivity.
  - unfold chapters_between.
    replace (digits_value c2 + 1 - digits_value c1)
      with (S (digits_value c2 - digits_value c1)) by lia.
    rewrite seq_S, !map_app. cbn [map]. rewrite getitem_last.
    replace (digits_value c1 + (digits_value c2 - digits_value c1))
      with (digits_value c2) by lia.
    now rewrite (pad3_value c2 L2 D2).
Qed.

Lemma ChapterRange_enumerate_ascending_witness :
  BCID.wf (BCID.mk "41002") = true /\
  BCID.wf (BCID.mk "41005") = true /\
  ChapterRange.new (BCID.mk "41002") (BCID.mk "41005")
  = inr (ChapterRange.mk (BCID.mk "41002") (BCID.mk "41005")) /\
  exists l a b,
    call ChapterRange.enumerate (ChapterRange.mk (BCID.mk "41002") (BCID.mk "41005"))
    = inr l /\
    int (BCID.chapter_ID (BCID.mk "41002")) = inr a /\
    int (BCID.chapter_ID (BCID.mk "41005")) = inr b /\
    a <= b /\
    map Chapter.identifier l = chapters_between (BCID.book_ID (BCID.mk "41002")) a b /\
    consecutive l /\
    getitem l 0 = inr (Chapter.mk (BCID.mk "41002")) /\
    getitem l (-1) = inr (Chapter.mk (BCID.mk "41005")).
Proof.
  split; [reflexivity |]. split; [reflexivity |]. split; [reflexivity |].
  apply (ChapterRange_enumerate_ascending (BCID.mk "41002") (BCID.mk "41005"));
    reflexivity.
Defined.

(** ** VerseRange *)

Lemma simplify_BCVID_BCID_eq (x : BCVID.t) :
  simplify x BCID.t = BCID.mk (str_prefix 5 (BCVID.ID x)).
Proof. reflexivity. Qed.

Lemma simplify_BCVID_BID_eq (x : BCVID.t) :
  simplify x BID.t = BID.mk (str_prefix 2 (BCVID.ID x)).
Proof. reflexivity. Qed.

Lemma simplify_BCID_BID_eq (x : BCID.t) :
  simplify x BID.t = BID.mk (str_prefix 2 (BCID.ID x)).
Proof. reflexivity. Qed.

Lemma str_app_inv_length a : forall a' x y,
  String.length a = String.length a' ->
  (a ++ x)%string = (a' ++ y)%string -> a = a' /\ x = y.
Proof.
  induction a as [| c a IH]; intros [| c' a'] x y Hlen H; simpl in Hlen;
    try discriminate.
  - auto.
  - simpl in H. injection H as -> H. injection Hlen as Hlen.
    destruct (IH a' x y Hlen H) as [-> ->]. auto.
Qed.

Lemma flat_map_map {A B C} (f : B -> list C) (g : A -> B) l :
  flat_map f (map g l) = flat_map (fun x => f (g x)) l.
Proof. induction l as [| x l IH]; simpl; [reflexivity | now rewrite IH]. Qed.

Lemma length_flat_map {A B} (f : A -> list B) l :
  List.length (flat_map f l) = list_sum (map (fun x => List.length (f x)) l).
Proof.
  induction l as [| x l IH]; simpl; [reflexivity |].
  now rewrite length_app, IH.
Qed.

Lemma Chapter_enumerate_verses c a b :
  Chapter.enumerate (Chapter.mk c) a b = verses_of c a b.
Proof. reflexivity. Qed.

(** ** Counting the verses of a book between two verses *)

Lemma filter_none {A} (f : A -> bool) l :
  (forall x, In x l -> f x = false) -> filter f l = [].
Proof.
  induction l as [| x l IH]; intro H; cbn [filter]; [reflexivity |].
  rewrite (H x (or_introl eq_refl)). apply IH. intros y Hy. apply H. now right.
Qed.

Lemma filter_all {A} (f : A -> bool) l :
  (forall x, In x l -> f x = true) -> filter f l = l.
Proof.
  induction l as [| x l IH]; intro H; cbn [filter]; [reflexivity |].
  rewrite (H x (or_introl eq_refl)). f_equal. apply IH. intros y Hy. apply H. now right.
Qed.

Lemma filter_of_map {A B} (f : B -> bool) (g : A -> B) l :
  filter f (map g l) = map g (filter (fun x => f (g x)) l).
Proof.
  induction l as [| x l IH]; cbn [map filter]; [reflexivity |].
  destruct (f (g x)); cbn [map]; now rewrite IH.
Qed.

Lemma filter_of_flat_map {A B} (f : B -> bool) (g : A -> list B) l :
  filter f (flat_map g l) = flat_map (fun x => filter f (g x)) l.
Proof.
  induction l as [| x l IH]; cbn [flat_map]; [reflexivity |].
  now rewrite filter_app, IH.
Qed.

Lemma list_sum_cons x l : list_sum (x :: l) = x + list_sum l.
Proof. reflexivity. Qed.

Lemma list_sum_zero {A} (f : A -> nat) l :
  (forall x, In x l -> f x = 0) -> list_sum (map f l) = 0.
Proof.
  induction l as [| x l IH]; intro H; cbn [map]; [reflexivity |].
  rewrite list_sum_cons, (H x (or_introl eq_refl)), IH; [reflexivity |].
  intros y Hy. apply H. now right.
Qed.

(** Of the numbers 1 through [n], those from [a] through [b]. *)
Lemma count_from_through n a b :
  1 <= a -> b <= n ->
  List.length (filter (fun v => (a <=? v) && (v <=? b)) (seq 1 n)) = b + 1 - a.
Proof.
  intros Ha Hb.
  destruct (Nat.le_gt_cases a (b + 1)) as [Hab | Hab].
  - replace n with ((a - 1) + ((b + 1 - a) + (n - b))) by lia.
    rewrite !seq_app, !filter_app, !length_app.
    replace (1 + (a - 1)) with a by lia.
    rewrite (filter_none _ (seq 1 (a - 1))), (filter_all _ (seq a (b + 1 - a))),
      (filter_none _ (seq (a + (b + 1 - a)) (n - b))).
    + cbn [List.length]. rewrite length_seq. lia.
    + intros v Hv. apply in_seq in Hv. apply andb_false_iff. right.
      apply Nat.leb_gt. lia.
    + intros v Hv. apply in_seq in Hv. apply andb_true_iff.
      split; apply Nat.leb_le; lia.
    + intros v Hv. apply in_seq in Hv. apply andb_false_iff. left.
      apply Nat.leb_gt. lia.
  - rewrite filter_none; [cbn [List.length]; lia |].
    intros v Hv. apply andb_false_iff.
    destruct (Nat.le_gt_cases a v); [right | left]; apply Nat.leb_gt; lia.
Qed.

(** Decides the comparisons of numbers in the goal. *)
Ltac decide_order :=
  unfold position_leb; cbn [fst snd];
  repeat match goal with
         | |- context [?x <? ?y] => destruct (Nat.ltb_spec x y)
         | |- context [?x <=? ?y] => destruct (Nat.leb_spec x y)
         | |- context [?x =? ?y] => destruct (Nat.eqb_spec x y)
         end;
  cbn [andb orb]; try reflexivity; try lia.

(** The verses of one chapter that lie between the two boundary verses. *)
Lemma count_in_chapter sc sv ec ev c n a b :
  (forall v, 1 <= v <= n ->
     position_leb (sc, sv) (c, v) && position_leb (c, v) (ec, ev)
     = (a <=? v) && (v <=? b)) ->
  1 <= a -> b <= n ->
  List.length
    (filter (fun x => position_leb (sc, sv) x && position_leb x (ec, ev))
            (map (pair c) (seq 1 n)))
  = b + 1 - a.
Proof.
  intros H Ha Hb. rewrite filter_of_map, length_map.
  rewrite <- (count_from_through n a b Ha Hb). f_equal.
  apply filter_ext_in. intros v Hv. apply in_seq in Hv. apply H. lia.
Qed.

(** The count, chapter by chapter. *)
Lemma verse_count_by_chapter lastverse_of book sc sv ec ev :
  verse_count lastverse_of book sc sv ec ev
  = list_sum
      (map (fun c =>
              List.length
                (filter (fun x => position_leb (sc, sv) x && position_leb x (ec, ev))
                   (map (pair c)
                      (seq 1 (lastverse_of (BCID.mk (book ++ pad c 3)))))))
           (seq 0 1000)).
Proof.
  unfold verse_count, book_verses.
  now rewrite filter_of_flat_map, length_flat_map.
Qed.

Lemma verse_count_chapters lastverse_of book sc sv ec ev :
  sc <= ec -> ec < 1000 ->
  verse_count lastverse_of book sc sv ec ev
  = list_sum
      (map (fun c =>
              List.length
                (filter (fun x => position_leb (sc, sv) x && position_leb x (ec, ev))
                   (map (pair c)
                      (seq 1 (lastverse_of (BCID.mk (book ++ pad c 3)))))))
           (seq sc (ec + 1 - sc))).
Proof.
  intros Hle Hec. rewrite verse_count_by_chapter.
  replace 1000 with (sc + ((ec + 1 - sc) + (999 - ec))) at 1 by lia.
  rewrite !seq_app, !map_app, !list_sum_app. cbn [Nat.add].
  rewrite (list_sum_zero _ (seq 0 sc)), (list_sum_zero _ (seq (sc + (ec + 1 - sc)) _)).
  - lia.
  - intros c Hc. apply in_seq in Hc.
    rewrite (count_in_chapter sc sv ec ev c _ 1 0); [reflexivity | | lia | lia].
    intros v Hv. decide_order.
  - intros c Hc. apply in_seq in Hc.
    rewrite (count_in_chapter sc sv ec ev c _ 1 0); [reflexivity | | lia | lia].
    intros v Hv. decide_order.
Qed.

(** Within one chapter the count is [ev - sv + 1]. *)
Lemma verse_count_one_chapter lastverse_of book sc sv ev :
  sc < 1000 -> 1 <= sv ->
  ev <= lastverse_of (BCID.mk (book ++ pad sc 3)) ->
  verse_count lastverse_of book sc sv sc ev = ev + 1 - sv.
Proof.
  intros Hsc Hsv Hev. rewrite verse_count_chapters by lia.
  replace (sc + 1 - sc) with 1 by lia. cbn [seq map].
  rewrite list_sum_cons. change (list_sum []) with 0.
  rewrite (count_in_chapter sc sv sc ev sc _ sv ev); [lia | | lia | lia].
  intros v Hv. decide_order.
Qed.

(** Across chapters the count is the rest of the first chapter, every
    chapter between, and the last chapter up to the end verse. *)
Lemma verse_count_several_chapters lastverse_of book sc sv ec ev :
  sc < ec -> ec < 1000 -> 1 <= sv ->
  ev <= lastverse_of (BCID.mk (book ++ pad ec 3)) ->
  verse_count lastverse_of book sc sv ec ev
  = (lastverse_of (BCID.mk (book ++ pad sc 3)) + 1 - sv)
    + list_sum (map lastverse_of (middle_chapters book sc ec))
    + ev.
Proof.
  intros Hlt Hec Hsv Hev. rewrite verse_count_chapters by lia.
  rewrite (seq_first_middle_last sc ec Hlt). cbn [map].
  rewrite list_sum_cons, map_app, list_sum_app. cbn [map].
  rewrite list_sum_cons. change (list_sum []) with 0.
  rewrite (count_in_chapter sc sv ec ev sc _ sv
             (lastverse_of (BCID.mk (book ++ pad sc 3)))); [| | lia | lia].
  2: { intros v Hv. decide_order. }
  rewrite (count_in_chapter sc sv ec ev ec _ 1 ev); [| | lia | lia].
  2: { intros v Hv. decide_order. }
  unfold middle_chapters. rewrite map_map.
  rewrite (map_ext_in _ (fun i => lastverse_of (BCID.mk (book ++ pad i 3)))
             (seq (sc + 1) (ec - 1 - sc))).
  - lia.
  - intros c Hc. apply in_seq in Hc.
    rewrite (count_in_chapter sc sv ec ev c _ 1
               (lastverse_of (BCID.mk (book ++ pad c 3)))); [lia | | lia | lia].
    intros v Hv. decide_order.
Qed.

(** Reads the fields of the records at hand. *)
Ltac fields :=
  cbn [VerseRange.startid VerseRange.endid VerseRange.ID VerseRange.book_ID
       ChapterRange.startid ChapterRange.endid BCVID.ID BCID.ID BID.ID
       Chapter.identifier Chapter.inst Verse.identifier fst snd].

Ltac fields_in H :=
  cbn [VerseRange.startid VerseRange.endid VerseRange.ID VerseRange.book_ID
       ChapterRange.startid ChapterRange.endid BCVID.ID BCID.ID BID.ID
       Chapter.identifier Chapter.inst Verse.identifier fst snd] in H.

Section VerseRangeProperties.

Variable lastverse_of : BCID.t -> nat.
Variable str_eq_BID : string -> BID.t -> bool.

Lemma VerseRange_new_spec s e :
  VerseRange.new str_eq_BID s e =
  if str_eq_BID (str_prefix 2 (BCVID.ID s)) (simplify e BID.t)
  then if BCVID.leb s e
       then inr (VerseRange.mk s e None (Some (str_prefix 2 (BCVID.ID s))))
       else inl (AssertionError MustPrecede)
  else inl (AssertionError SameBook).
Proof.
  unfold VerseRange.new, VerseRange.post_init, VerseRange.init. run_method.
  cbn [VerseRange.startid VerseRange.endid VerseRange.book_ID VerseRange.ID
       VerseRange.set_book_ID BCVID.to_bid BID.ID].
  destruct (str_eq_BID _ _); [| reflexivity].
  cbn [VerseRange.startid VerseRange.endid VerseRange.book_ID VerseRange.ID
       VerseRange.set_book_ID].
  destruct (BCVID.leb s e); reflexivity.
Qed.

(** The enumeration within one chapter [b ++ c]. *)
Lemma VerseRange_enumerate_single b c v1 v2 i bk :
  String.length b = 2 -> String.length c = 3 ->
  String.length v1 = 3 -> all_digits v1 = true ->
  String.length v2 = 3 -> all_digits v2 = true ->
  all_digits c = true ->
  digits_value v1 <= digits_value v2 ->
  let self := VerseRange.mk (BCVID.mk (b ++ c ++ v1)) (BCVID.mk (b ++ c ++ v2)) i bk in
  VerseRange.enumerate lastverse_of self =
  (inr (verses_of (BCID.mk (b ++ c)) (digits_value v1) (digits_value v2)), self).
Proof.
  intros Lb Lc L1 D1 L2 D2 Dc Hle self. subst self.
  destruct (BCVID_slices b c v1 Lb Lc L1) as (_ & Pc1 & Pv1 & P51).
  destruct (BCVID_slices b c v2 Lb Lc L2) as (_ & Pc2 & Pv2 & _).
  destruct (digits3_int c Lc Dc) as (Ic & Bc).
  destruct (digits3_int v1 L1 D1) as (I1 & B1).
  destruct (digits3_int v2 L2 D2) as (I2 & B2).
  unfold VerseRange.enumerate. run_method.
  cbn [VerseRange.startid VerseRange.endid].
  unfold BCVID.eqb, BCVID.chapter_ID, BCVID.verse_ID. cbn [BCVID.ID].
  destruct (String.eqb_spec (b ++ c ++ v1) (b ++ c ++ v2)) as [E | E];
    cbn [VerseRange.startid VerseRange.endid BCVID.ID].
  - do 2 apply str_app_inv_head in E. subst v2.
    unfold verses_of.
    replace (digits_value v1 + 1 - digits_value v1) with 1 by lia.
    cbn [seq map BCID.ID]. now rewrite (pad3_value v1 L1 D1), str_app_assoc.
  - rewrite Pc1, Pv1, Pc2, Pv2, Ic, I1, I2, Nat.eqb_refl.
    rewrite simplify_BCVID_BCID_eq. fields. rewrite P51.
    now rewrite Chapter_enumerate_verses.
Qed.

(** The enumeration across the chapters [b ++ c1] to [b ++ c2]. *)
Lemma VerseRange_enumerate_multi b c1 v1 c2 v2 i bk :
  String.length b = 2 -> all_digits b = true ->
  String.length c1 = 3 -> all_digits c1 = true ->
  String.length v1 = 3 -> all_digits v1 = true ->
  String.length c2 = 3 -> all_digits c2 = true ->
  String.length v2 = 3 -> all_digits v2 = true ->
  digits_value c1 < digits_value c2 ->
  let self := VerseRange.mk (BCVID.mk (b ++ c1 ++ v1)) (BCVID.mk (b ++ c2 ++ v2)) i bk in
  VerseRange.enumerate lastverse_of self =
  (inr (verses_of (BCID.mk (b ++ c1)) (digits_value v1)
                  (lastverse_of (BCID.mk (b ++ c1)))
        ++ flat_map (fun c => verses_of c 1 (lastverse_of c))
                    (middle_chapters b (digits_value c1) (digits_value c2))
        ++ verses_of (BCID.mk (b ++ c2)) 1 (digits_value v2)),
   self).
Proof.
  intros Lb Db Lc1 Dc1 L1 D1 Lc2 Dc2 L2 D2 Hlt self. subst self.
  destruct (BCVID_slices b c1 v1 Lb Lc1 L1) as (_ & Pc1 & Pv1 & P51).
  destruct (BCVID_slices b c2 v2 Lb Lc2 L2) as (_ & Pc2 & Pv2 & P52).
  destruct (BCID_slices b c1 Lb Lc1) as (Pb1 & _).
  destruct (BCID_slices b c2 Lb Lc2) as (Pb2 & _).
  destruct (digits3_int c1 Lc1 Dc1) as (Ic1 & Bc1).
  destruct (digits3_int c2 Lc2 Dc2) as (Ic2 & Bc2).
  destruct (digits3_int v1 L1 D1) as (I1 & B1).
  destruct (digits3_int v2 L2 D2) as (I2 & B2).
  unfold VerseRange.enumerate. run_method.
  cbn [VerseRange.startid VerseRange.endid].
  unfold BCVID.eqb, BCVID.chapter_ID, BCVID.verse_ID. cbn [BCVID.ID].
  destruct (String.eqb_spec (b ++ c1 ++ v1) (b ++ c2 ++ v2)) as [E | E];
    cbn [VerseRange.startid VerseRange.endid BCVID.ID].
  { apply str_app_inv_head in E.
    apply str_app_inv_length in E as [E _]; [| congruence].
    subst c2. lia. }
  rewrite Pc1, Pv1, Pc2, Pv2, Ic1, I1, Ic2, I2.
  destruct (Nat.eqb_spec (digits_value c1) (digits_value c2)) as [F | F]; [lia |].
  rewrite !simplify_BCVID_BCID_eq. fields. rewrite P51, P52.
  rewrite ChapterRange_new_spec, !simplify_BCID_BID_eq. fields.
  rewrite Pb1, Pb2. unfold BID.eqb, BCID.leb. fields.
  rewrite String.eqb_refl, leb_app_same, leb_digits by congruence.
  destruct (Nat.leb_spec (digits_value c1) (digits_value c2)) as [G | G]; [| lia].
  rewrite (ChapterRange_enumerate_run b c1 c2) by assumption. fields.
  unfold chapters_between. rewrite (seq_first_middle_last _ _ Hlt).
  cbn [map]. rewrite !map_app. cbn [map].
  rewrite getitem_first, getslice_middle.
  change (?x :: ?l ++ [?y]) with ((x :: l) ++ [y]). rewrite getitem_last.
  fields. unfold VerseRange.get_verses.
  rewrite (pad3_value c1 Lc1 Dc1), (pad3_value c2 Lc2 Dc2).
  rewrite map_id, flat_map_map. unfold Chapter.lastverse.
  reflexivity.
Qed.

Lemma leb_two_parts c1 v1 c2 v2 :
  String.length c1 = 3 -> all_digits c1 = true ->
  String.length c2 = 3 -> all_digits c2 = true ->
  String.length v1 = 3 -> all_digits v1 = true ->
  String.length v2 = 3 -> all_digits v2 = true ->
  (c1 ++ v1 <=? c2 ++ v2)%string = true ->
  (c1 = c2 /\ digits_value v1 <= digits_value v2) \/
  digits_value c1 < digits_value c2.
Proof.
  intros Lc1 Dc1 Lc2 Dc2 L1 D1 L2 D2 H. unfold String.leb in H.
  rewrite compare_app, (compare_digits c1 c2), (compare_digits v1 v2) in H
    by congruence.
  destruct (Nat.compare_spec (digits_value c1) (digits_value c2)) as [E | E | E].
  - left. split; [apply digits_value_inj; congruence |].
    destruct (Nat.compare_spec (digits_value v1) (digits_value v2));
      [lia | lia | discriminate].
  - now right.
  - discriminate.
Qed.

Lemma verses_of_first c a b rest :
  a <= b ->
  getitem (verses_of c a b ++ rest) 0
  = inr (Verse.mk (BCVID.mk (BCID.ID c ++ pad a 3))).
Proof.
  intro H. unfold verses_of. replace (b + 1 - a) with (S (b - a)) by lia.
  reflexivity.
Qed.

Lemma verses_of_last c a b front :
  a <= b ->
  getitem (front ++ verses_of c a b) (-1)
  = inr (Verse.mk (BCVID.mk (BCID.ID c ++ pad b 3))).
Proof.
  intro H. unfold verses_of. replace (b + 1 - a) with (S (b - a)) by lia.
  rewrite seq_S, map_app, app_assoc. cbn [map]. rewrite getitem_last.
  now replace (a + (b - a)) with b by lia.
Qed.

Lemma length_verses_of c a b : List.length (verses_of c a b) = b + 1 - a.
Proof. unfold verses_of. now rewrite length_map, length_seq. Qed.

Hypothesis str_eq_BID_sound :
  forall s b, str_eq_BID s b = true -> s = BID.ID b.

(** A validly constructed verse range: one book, and either one chapter with
    the verse numbers in order or the chapter numbers in strict order. *)
Lemma VerseRange_valid s e vr :
  BCVID.wf s = true -> BCVID.wf e = true ->
  VerseRange.new str_eq_BID s e = inr vr ->
  exists b c1 v1 c2 v2,
    s = BCVID.mk (b ++ c1 ++ v1) /\ e = BCVID.mk (b ++ c2 ++ v2) /\
    vr = VerseRange.mk s e None (Some b) /\
    (String.length b = 2 /\ all_digits b = true) /\
    (String.length c1 = 3 /\ all_digits c1 = true) /\
    (String.length v1 = 3 /\ all_digits v1 = true) /\
    (String.length c2 = 3 /\ all_digits c2 = true) /\
    (String.length v2 = 3 /\ all_digits v2 = true) /\
    ((c1 = c2 /\ digits_value v1 <= digits_value v2) \/
     digits_value c1 < digits_value c2).
Proof.
  intros Ws We Hnew.
  destruct (BCVID_decompose s Ws) as (b & c1 & v1 & -> & Lb & Lc1 & L1 & Db & Dc1 & D1).
  destruct (BCVID_decompose e We) as (b' & c2 & v2 & -> & Lb' & Lc2 & L2 & Db' & Dc2 & D2).
  destruct (BCVID_slices b c1 v1 Lb Lc1 L1) as (Pb & _).
  destruct (BCVID_slices b' c2 v2 Lb' Lc2 L2) as (Pb' & _).
  rewrite VerseRange_new_spec, simplify_BCVID_BID_eq in Hnew. fields_in Hnew.
  rewrite Pb, Pb' in Hnew.
  destruct (str_eq_BID b (BID.mk b')) eqn:Hbook; [| discriminate].
  apply str_eq_BID_sound in Hbook. cbn [BID.ID] in Hbook. subst b'.
  destruct (BCVID.leb _ _) eqn:Hle; [| discriminate].
  injection Hnew as <-.
  unfold BCVID.leb in Hle. fields_in Hle. rewrite leb_app_same in Hle.
  exists b, c1, v1, c2, v2. repeat split; auto.
  now apply leb_two_parts.
Qed.

(** C1, as amended.  For a validly constructed [VerseRange] whose [startid]
    and [endid] identify verses that exist (each verse number is at least 1
    and at most the last verse number of its chapter), [enumerate()] returns
    a sequence whose first element is the verse of [startid], whose last
    element is the verse of [endid], and whose length is the number of verses
    of the book from the one through the other, both included, counted from
    the chapters' last verse numbers. *)
Theorem VerseRange_enumerate_ends (s e : BCVID.t) (vr : VerseRange.t) :
  BCVID.wf s = true -> BCVID.wf e = true ->
  VerseRange.new str_eq_BID s e = inr vr ->
  verses_exist lastverse_of s e ->
  exists l sc sv ec ev,
    call (VerseRange.enumerate lastverse_of) vr = inr l /\
    int (BCVID.chapter_ID s) = inr sc /\ int (BCVID.verse_ID s) = inr sv /\
    int (BCVID.chapter_ID e) = inr ec /\ int (BCVID.verse_ID e) = inr ev /\
    getitem l 0 = inr (Verse.mk s) /\
    getitem l (-1) = inr (Verse.mk e) /\
    List.length l = verse_count lastverse_of (BCVID.book_ID s) sc sv ec ev.
Proof.
  intros Ws We Hnew Hex.
  destruct (VerseRange_valid s e vr Ws We Hnew)
    as (b & c1 & v1 & c2 & v2 & -> & -> & -> & (Lb & Db) & (Lc1 & Dc1)
        & (L1 & D1) & (Lc2 & Dc2) & (L2 & D2) & Horder).
  destruct (BCVID_slices b c1 v1 Lb Lc1 L1) as (Pb1 & Pc1 & Pv1 & P51).
  destruct (BCVID_slices b c2 v2 Lb Lc2 L2) as (_ & Pc2 & Pv2 & P52).
  destruct (digits3_int c1 Lc1 Dc1) as (Ic1 & Bc1).
  destruct (digits3_int c2 Lc2 Dc2) as (Ic2 & Bc2).
  destruct (digits3_int v1 L1 D1) as (I1 & B1).
  destruct (digits3_int v2 L2 D2) as (I2 & B2).
  unfold verses_exist in Hex. rewrite !simplify_BCVID_BCID_eq in Hex.
  unfold BCVID.book_ID, BCVID.chapter_ID, BCVID.verse_ID in *.
  fields_in Hex. fields. rewrite Pb1, Pc1, Pv1, Pc2, Pv2.
  rewrite Pv1, Pv2, P51, P52 in Hex.
  destruct Hex as ((sv & Hsv & Hs1 & Hs2) & (ev & Hev & He1 & He2)).
  rewrite I1 in Hsv. injection Hsv as <-.
  rewrite I2 in Hev. injection Hev as <-.
  rewrite <- (pad3_value c1 Lc1 Dc1) in Hs2.
  rewrite <- (pad3_value c2 Lc2 Dc2) in He2.
  unfold call.
  destruct Horder as [[<- Hle] | Hlt].
  - rewrite (VerseRange_enumerate_single b c1 v1 v2) by assumption.
    eexists _, _, _, _, _. fields.
    split; [reflexivity |]. do 4 (split; [eassumption |]).
    split; [| split].
    + rewrite <- (app_nil_r (verses_of _ _ _)), verses_of_first by exact Hle.
      fields. now rewrite (pad3_value v1 L1 D1), str_app_assoc.
    + rewrite <- (app_nil_l (verses_of _ _ _)), verses_of_last by exact Hle.
      fields. now rewrite (pad3_value v2 L2 D2), str_app_assoc.
    + rewrite length_verses_of. symmetry.
      now apply verse_count_one_chapter.
  - rewrite (VerseRange_enumerate_multi b c1 v1 c2 v2) by assumption.
    eexists _, _, _, _, _. fields.
    split; [reflexivity |]. do 4 (split; [eassumption |]).
    split; [| split].
    + rewrite verses_of_first by (rewrite <- (pad3_value c1 Lc1 Dc1); exact Hs2).
      fields. now rewrite (pad3_value v1 L1 D1), str_app_assoc.
    + rewrite app_assoc, verses_of_last by exact He1.
      fields. now rewrite (pad3_value v2 L2 D2), str_app_assoc.
    + rewrite verse_count_several_chapters by assumption.
      rewrite !length_app, !length_verses_of, length_flat_map.
      rewrite (pad3_value c1 Lc1 Dc1).
      rewrite (map_ext (fun c => List.length (verses_of c 1 (lastverse_of c)))
                 lastverse_of).
      * lia.
      * intro c. rewrite length_verses_of. lia.
Qed.

(** C3. For a validly constructed [VerseRange] whose start and end chapter
    components differ, [enumerate()] returns, in order: the verses of the
    first chapter from [startid]'s verse number through that chapter's last
    verse number; all verses, 1 through the last verse number, of each chapter
    strictly between the first and the last; and the verses of the last
    chapter from 1 through [endid]'s verse number. *)
Theorem VerseRange_enumerate_multi_chapter (s e : BCVID.t) (vr : VerseRange.t) :
  BCVID.wf s = true -> BCVID.wf e = true ->
  VerseRange.new str_eq_BID s e = inr vr ->
  BCVID.chapter_ID s <> BCVID.chapter_ID e ->
  exists sc sv ec ev,
    int (BCVID.chapter_ID s) = inr sc /\ int (BCVID.verse_ID s) = inr sv /\
    int (BCVID.chapter_ID e) = inr ec /\ int (BCVID.verse_ID e) = inr ev /\
    sc < ec /\
    let first := simplify s BCID.t in
    let last := simplify e BCID.t in
    call (VerseRange.enumerate lastverse_of) vr =
    inr (verses_of first sv (lastverse_of first)
         ++ flat_map (fun c => verses_of c 1 (lastverse_of c))
                     (middle_chapters (BCVID.book_ID s) sc ec)
         ++ verses_of last 1 ev).
Proof.
  intros Ws We Hnew Hne.
  destruct (VerseRange_valid s e vr Ws We Hnew)
    as (b & c1 & v1 & c2 & v2 & -> & -> & -> & (Lb & Db) & (Lc1 & Dc1)
        & (L1 & D1) & (Lc2 & Dc2) & (L2 & D2) & Horder).
  destruct (BCVID_slices b c1 v1 Lb Lc1 L1) as (Pb1 & Pc1 & Pv1 & P51).
  destruct (BCVID_slices b c2 v2 Lb Lc2 L2) as (_ & Pc2 & Pv2 & P52).
  destruct (digits3_int c1 Lc1 Dc1) as (Ic1 & Bc1).
  destruct (digits3_int c2 Lc2 Dc2) as (Ic2 & Bc2).
  destruct (digits3_int v1 L1 D1) as (I1 & B1).
  destruct (digits3_int v2 L2 D2) as (I2 & B2).
  rewrite !simplify_BCVID_BCID_eq.
  unfold BCVID.book_ID, BCVID.chapter_ID, BCVID.verse_ID in *.
  fields_in Hne. fields. rewrite Pc1, Pc2 in Hne.
  rewrite Pb1, Pc1, Pv1, Pc2, Pv2, P51, P52.
  destruct Horder as [[E _] | Hlt]; [congruence |].
  exists (digits_value c1), (digits_value v1), (digits_value c2), (digits_value v2).
  do 4 (split; [assumption |]). split; [exact Hlt |].
  cbv zeta. unfold call.
  now rewrite (VerseRange_enumerate_multi b c1 v1 c2 v2) by assumption.
Qed.


(** C5. Constructing a [ChapterRange] or a [VerseRange] from two identifiers
    that do not simplify to the same book raises the assertion that they
    must be in the same book; the constructor returns no instance. *)
Theorem cross_book_rejected :
  (forall s e : BCID.t,
     simplify s BID.t <> simplify e BID.t ->
     ChapterRange.new s e = inl (AssertionError SameBook)) /\
  (forall s e : BCVID.t,
     simplify s BID.t <> simplify e BID.t ->
     VerseRange.new str_eq_BID s e = inl (AssertionError SameBook)).
Proof.
  split; intros s e Hne.
  - rewrite ChapterRange_new_spec. unfold BID.eqb.
    destruct (String.eqb_spec (BID.ID (simplify s BID.t)) (BID.ID (simplify e BID.t)))
      as [E | E]; [| reflexivity].
    exfalso. apply Hne.
    destruct (simplify s BID.t), (simplify e BID.t). cbn [BID.ID] in E. congruence.
  - rewrite VerseRange_new_spec.
    destruct (str_eq_BID _ _) eqn:E; [| reflexivity].
    exfalso. apply Hne. apply str_eq_BID_sound in E.
    rewrite !simplify_BCVID_BID_eq in *. cbn [BID.ID] in E. congruence.
Qed.


(** C7, what the code does.  After a successful construction of a
    [VerseRange], [book_ID] is the book component of [startid], but [ID] has
    never been assigned: reading it raises [AttributeError]. *)
Theorem VerseRange_ID_never_assigned (s e : BCVID.t) (vr : VerseRange.t) :
  VerseRange.new str_eq_BID s e = inr vr ->
  VerseRange.book_ID vr = Some (BCVID.book_ID s) /\
  VerseRange.ID vr = None /\
  call (getattr "ID" VerseRange.ID) vr = inl (AttributeError "ID").
Proof.
  rewrite VerseRange_new_spec.
  destruct (str_eq_BID _ _); [| discriminate].
  destruct (BCVID.leb s e); [| discriminate].
  intro H. injection H as <-. repeat split.
Qed.

(** C8. [enumerate()] of either range class assigns no attribute of the
    instance, and a second call on the instance returns what the first
    returned. *)
Theorem enumerate_pure :
  (forall cr : ChapterRange.t,
     snd (ChapterRange.enumerate cr) = cr /\
     call ChapterRange.enumerate (snd (ChapterRange.enumerate cr))
     = call ChapterRange.enumerate cr) /\
  (forall vr : VerseRange.t,
     snd (VerseRange.enumerate lastverse_of vr) = vr /\
     call (VerseRange.enumerate lastverse_of) (snd (VerseRange.enumerate lastverse_of vr))
     = call (VerseRange.enumerate lastverse_of) vr).
Proof.
  assert (Hc : readonly ChapterRange.enumerate).
  { unfold ChapterRange.enumerate.
    repeat first
      [ apply readonly_ret | apply readonly_get | apply readonly_lift
      | apply readonly_bind; [| intro]
      | match goal with |- readonly (if ?b then _ else _) => destruct b end ]. }
  assert (Hv : readonly (VerseRange.enumerate lastverse_of)).
  { unfold VerseRange.enumerate.
    repeat first
      [ apply readonly_ret | apply readonly_get | apply readonly_lift
      | apply readonly_bind; [| intro]
      | match goal with |- readonly (if ?b then _ else _) => destruct b end ]. }
  split; intro self.
  - rewrite (Hc self). auto.
  - rewrite (Hv self). auto.
Qed.

End VerseRangeProperties.

(** The same-book assertion of [VerseRange] rests on [BID.__eq__] accepting a
    string: were it to decline every string (as an equality generated for the
    class alone does), no [VerseRange] could be constructed. *)
Remark VerseRange_new_when_eq_declines (s e : BCVID.t) :
  VerseRange.new (fun _ _ => false) s e = inl (AssertionError SameBook).
Proof. now rewrite VerseRange_new_spec. Qed.

(** ** The concrete scenarios *)

Lemma ID_eq_sound s b : ID_eq s b = true -> s = BID.ID b.
Proof. unfold ID_eq. apply String.eqb_eq. Qed.

Lemma VerseRange_enumerate_ends_witness :
  BCVID.wf (BCVID.mk "41001040") = true /\
  BCVID.wf (BCVID.mk "41002002") = true /\
  VerseRange.new ID_eq (BCVID.mk "41001040") (BCVID.mk "41002002")
  = inr (VerseRange.mk (BCVID.mk "41001040") (BCVID.mk "41002002") None (Some "41")) /\
  verses_exist Mark_lastverse (BCVID.mk "41001040") (BCVID.mk "41002002") /\
  exists l sc sv ec ev,
    call (VerseRange.enumerate Mark_lastverse)
         (VerseRange.mk (BCVID.mk "41001040") (BCVID.mk "41002002") None (Some "41"))
    = inr l /\
    int (BCVID.chapter_ID (BCVID.mk "41001040")) = inr sc /\
    int (BCVID.verse_ID (BCVID.mk "41001040")) = inr sv /\
    int (BCVID.chapter_ID (BCVID.mk "41002002")) = inr ec /\
    int (BCVID.verse_ID (BCVID.mk "41002002")) = inr ev /\
    getitem l 0 = inr (Verse.mk (BCVID.mk "41001040")) /\
    getitem l (-1) = inr (Verse.mk (BCVID.mk "41002002")) /\
    List.length l
    = verse_count Mark_lastverse (BCVID.book_ID (BCVID.mk "41001040")) sc sv ec ev.
Proof.
  assert (Hex : verses_exist Mark_lastverse (BCVID.mk "41001040") (BCVID.mk "41002002")).
  { split.
    - exists 40. split; [reflexivity | vm_compute; lia].
    - exists 2. split; [reflexivity | vm_compute; lia]. }
  split; [reflexivity |]. split; [reflexivity |]. split; [reflexivity |].
  split; [exact Hex |].
  apply (VerseRange_enumerate_ends Mark_lastverse ID_eq ID_eq_sound
           (BCVID.mk "41001040") (BCVID.mk "41002002"));
    [reflexivity | reflexivity | reflexivity | exact Hex].
Defined.

(** C1 as stated fails.  Mark 1 has 45 verses, so the range from the
    well-formed identifier 41001046 to 41002002 is validly constructed, and
    its enumeration starts with Mark 2:1, not with [startid].  The range from
    41001040 to the well-formed identifier 41002000 is validly constructed
    too, and its enumeration ends with Mark 1:45, not with [endid].  And
    Mark 2 has 28 verses, so the validly constructed range from 41001040 to
    41002099 holds 34 verses of the book, while its enumeration has 105
    elements. *)
Lemma VerseRange_enumerate_first_counterexample :
  (BCVID.wf (BCVID.mk "41001046") = true /\
   BCVID.wf (BCVID.mk "41002002") = true /\
   VerseRange.new ID_eq (BCVID.mk "41001046") (BCVID.mk "41002002")
   = inr (VerseRange.mk (BCVID.mk "41001046") (BCVID.mk "41002002") None (Some "41")) /\
   call (VerseRange.enumerate Mark_lastverse)
        (VerseRange.mk (BCVID.mk "41001046") (BCVID.mk "41002002") None (Some "41"))
   = inr [Verse.mk (BCVID.mk "41002001"); Verse.mk (BCVID.mk "41002002")] /\
   ~ (exists l,
        call (VerseRange.enumerate Mark_lastverse)
             (VerseRange.mk (BCVID.mk "41001046") (BCVID.mk "41002002") None (Some "41"))
        = inr l /\
        getitem l 0 = inr (Verse.mk (BCVID.mk "41001046")))) /\
  (BCVID.wf (BCVID.mk "41001040") = true /\
   BCVID.wf (BCVID.mk "41002000") = true /\
   VerseRange.new ID_eq (BCVID.mk "41001040") (BCVID.mk "41002000")
   = inr (VerseRange.mk (BCVID.mk "41001040") (BCVID.mk "41002000") None (Some "41")) /\
   ~ (exists l,
        call (VerseRange.enumerate Mark_lastverse)
             (VerseRange.mk (BCVID.mk "41001040") (BCVID.mk "41002000") None (Some "41"))
        = inr l /\
        getitem l (-1) = inr (Verse.mk (BCVID.mk "41002000")))) /\
  (BCVID.wf (BCVID.mk "41001040") = true /\
   BCVID.wf (BCVID.mk "41002099") = true /\
   VerseRange.new ID_eq (BCVID.mk "41001040") (BCVID.mk "41002099")
   = inr (VerseRange.mk (BCVID.mk "41001040") (BCVID.mk "41002099") None (Some "41")) /\
   verse_count Mark_lastverse "41" 1 40 2 99 = 34 /\
   ~ (exists l,
        call (VerseRange.enumerate Mark_lastverse)
             (VerseRange.mk (BCVID.mk "41001040") (BCVID.mk "41002099") None (Some "41"))
        = inr l /\
        List.length l = verse_count Mark_lastverse "41" 1 40 2 99)).
Proof.
  split; [| split].
  - split; [reflexivity |]. split; [reflexivity |]. split; [reflexivity |].
    split; [reflexivity |].
    intros (l & Hl & Hfirst).
    vm_compute in Hl. injection Hl as <-. vm_compute in Hfirst. discriminate.
  - split; [reflexivity |]. split; [reflexivity |]. split; [reflexivity |].
    intros (l & Hl & Hlast).
    vm_compute in Hl. injection Hl as <-. vm_compute in Hlast. discriminate.
  - split; [reflexivity |]. split; [reflexivity |]. split; [reflexivity |].
    split; [vm_compute; reflexivity |].
    intros (l & Hl & Hlen).
    vm_compute in Hl. injection Hl as <-. vm_compute in Hlen. discriminate.
Qed.

Lemma VerseRange_enumerate_multi_chapter_witness :
  BCVID.wf (BCVID.mk "41001040") = true /\
  BCVID.wf (BCVID.mk "41003002") = true /\
  VerseRange.new ID_eq (BCVID.mk "41001040") (BCVID.mk "41003002")
  = inr (VerseRange.mk (BCVID.mk "41001040") (BCVID.mk "41003002") None (Some "41")) /\
  BCVID.chapter_ID (BCVID.mk "41001040") <> BCVID.chapter_ID (BCVID.mk "41003002") /\
  exists sc sv ec ev,
    int (BCVID.chapter_ID (BCVID.mk "41001040")) = inr sc /\
    int (BCVID.verse_ID (BCVID.mk "41001040")) = inr sv /\
    int (BCVID.chapter_ID (BCVID.mk "41003002")) = inr ec /\
    int (BCVID.verse_ID (BCVID.mk "41003002")) = inr ev /\
    sc < ec /\
    let first := simplify (BCVID.mk "41001040") BCID.t in
    let last := simplify (BCVID.mk "41003002") BCID.t in
    call (VerseRange.enumerate Mark_lastverse)
         (VerseRange.mk (BCVID.mk "41001040") (BCVID.mk "41003002") None (Some "41"))
    = inr (verses_of first sv (Mark_lastverse first)
           ++ flat_map (fun c => verses_of c 1 (Mark_lastverse c))
                       (middle_chapters (BCVID.book_ID (BCVID.mk "41001040")) sc ec)
           ++ verses_of last 1 ev).
Proof.
  assert (Hne : BCVID.chapter_ID (BCVID.mk "41001040")
                <> BCVID.chapter_ID (BCVID.mk "41003002")).
  { vm_compute. discriminate. }
  split; [reflexivity |]. split; [reflexivity |]. split; [reflexivity |].
  split; [exact Hne |].
  apply (VerseRange_enumerate_multi_chapter Mark_lastverse ID_eq ID_eq_sound
           (BCVID.mk "41001040") (BCVID.mk "41003002"));
    [reflexivity | reflexivity | reflexivity | exact Hne].
Defined.

Lemma cross_book_rejected_witness :
  (forall s b, ID_eq s b = true -> s = BID.ID b) /\
  simplify (BCID.mk "41002") BID.t <> simplify (BCID.mk "43005") BID.t /\
  ChapterRange.new (BCID.mk "41002") (BCID.mk "43005")
  = inl (AssertionError SameBook) /\
  simplify (BCVID.mk "41001040") BID.t <> simplify (BCVID.mk "43001005") BID.t /\
  VerseRange.new ID_eq (BCVID.mk "41001040") (BCVID.mk "43001005")
  = inl (AssertionError SameBook).
Proof.
  assert (H1 : simplify (BCID.mk "41002") BID.t <> simplify (BCID.mk "43005") BID.t).
  { vm_compute. discriminate. }
  assert (H2 : simplify (BCVID.mk "41001040") BID.t
               <> simplify (BCVID.mk "43001005") BID.t).
  { vm_compute. discriminate. }
  destruct (cross_book_rejected ID_eq ID_eq_sound) as [Hc Hv].
  split; [exact ID_eq_sound |]. split; [exact H1 |].
  split; [exact (Hc _ _ H1) |]. split; [exact H2 | exact (Hv _ _ H2)].
Defined.

Lemma VerseRange_ID_never_assigned_witness :
  VerseRange.new ID_eq (BCVID.mk "41001040") (BCVID.mk "41002002")
  = inr (VerseRange.mk (BCVID.mk "41001040") (BCVID.mk "41002002") None (Some "41")) /\
  VerseRange.book_ID
    (VerseRange.mk (BCVID.mk "41001040") (BCVID.mk "41002002") None (Some "41"))
  = Some (BCVID.book_ID (BCVID.mk "41001040")) /\
  VerseRange.ID
    (VerseRange.mk (BCVID.mk "41001040") (BCVID.mk "41002002") None (Some "41"))
  = None /\
  call (getattr "ID" VerseRange.ID)
       (VerseRange.mk (BCVID.mk "41001040") (BCVID.mk "41002002") None (Some "41"))
  = inl (AttributeError "ID").
Proof.
  split; [reflexivity |].
  apply (VerseRange_ID_never_assigned ID_eq (BCVID.mk "41001040") (BCVID.mk "41002002")).
  reflexivity.
Defined.

(** * More properties of the code *)

Ltac run_method_in H :=
  unfold construct, call, bind, get, getattr, setattr, assert_, lift, ret, raise in H;
  cbv beta in H.

(** ** ClearID: the components *)

Lemma substring_past_end s : forall n m,
  String.length s <= n -> substring n m s = "".
Proof.
  induction s as [| c s IH]; intros n m H.
  - apply substring_empty.
  - destruct n as [| n]; simpl in *; [lia |]. apply IH. lia.
Qed.

(** What a constructed [ClearID] holds, for both accepted lengths. *)
Lemma ClearID_new_inv s c :
  ClearID.new s = inr c ->
  (String.length s = 11 \/ String.length s = 12) /\
  c = ClearID.mk s (Some (str_prefix 2 s)) (Some (str_slice 2 5 s))
        (Some (str_slice 5 8 s)) (Some (str_slice 8 11 s))
        (Some (substring 11 1 s)).
Proof.
  intro H.
  destruct (Nat.eq_dec (String.length s) 11) as [H11 | H11];
    [| destruct (Nat.eq_dec (String.length s) 12) as [H12 | H12]].
  - rewrite (ClearID_new_11 s H11) in H. injection H as <-.
    split; [now left |]. now rewrite substring_past_end by lia.
  - destruct (ClearID_new_12 s H12) as (a & Ha & Hnew).
    rewrite Hnew in H. injection H as <-.
    split; [now right |]. now rewrite (substring_get s 11 a Ha).
  - rewrite (ClearID_new_invalid s H11 H12) in H. discriminate.
Qed.

Lemma length_substring_le s : forall n m,
  String.length (substring n m s) <= m.
Proof.
  induction s as [| c s IH]; intros n m.
  - rewrite substring_empty. simpl. lia.
  - destruct n as [| n].
    + destruct m as [| m]; simpl; [lia |]. specialize (IH 0 m). lia.
    + simpl. apply IH.
Qed.

(** X1. The components of a constructed [ClearID] have the widths that the
    class documents: [book_ID] two characters, [chapter_ID], [verse_ID] and
    [word_ID] three each, and [part_ID] what is left of [ID] after the first
    eleven, none or one. *)
Theorem ClearID_component_widths (s : string) (c : ClearID.t) :
  ClearID.new s = inr c ->
  exists b ch v w p,
    ClearID.book_ID c = Some b /\ ClearID.chapter_ID c = Some ch /\
    ClearID.verse_ID c = Some v /\ ClearID.word_ID c = Some w /\
    ClearID.part_ID c = Some p /\
    String.length b = 2 /\ String.length ch = 3 /\ String.length v = 3 /\
    String.length w = 3 /\ String.length p = String.length s - 11.
Proof.
  intro H. apply ClearID_new_inv in H as [Hlen ->].
  do 5 eexists. do 5 (split; [reflexivity |]).
  unfold str_prefix, str_slice. cbn [Nat.sub].
  repeat split; try (apply length_substring; lia).
  destruct Hlen as [Hlen | Hlen]; rewrite Hlen.
  - now rewrite substring_past_end by lia.
  - apply length_substring. lia.
Qed.

Lemma ClearID_component_widths_witness :
  ClearID.new "430010010051"
  = inr (ClearID.mk "430010010051" (Some "43") (Some "001") (Some "001")
           (Some "005") (Some "1")) /\
  exists b ch v w p,
    Some "43" = Some b /\ Some "001" = Some ch /\ Some "001" = Some v /\
    Some "005" = Some w /\ Some "1" = Some p /\
    String.length b = 2 /\ String.length ch = 3 /\ String.length v = 3 /\
    String.length w = 3 /\ String.length p = String.length "430010010051" - 11.
Proof.
  split; [reflexivity |].
  apply (ClearID_component_widths "430010010051"
           (ClearID.mk "430010010051" (Some "43") (Some "001") (Some "001")
              (Some "005") (Some "1"))).
  reflexivity.
Defined.

Lemma length_0 s : String.length s = 0 -> s = "".
Proof. destruct s; [reflexivity | discriminate]. Qed.

Lemma length_1 s : String.length s = 1 -> exists a, s = String a "".
Proof. destruct s as [| a [| b s]]; try discriminate. eauto. Qed.

(** X2. Building an identifier from its parts and reading it back: for a
    two-character book, three-character chapter, verse and word, and a part
    of at most one character, [ClearID(book + chapter + verse + word + part)]
    is constructed and its components are exactly these parts. *)
Theorem ClearID_of_components (b ch v w p : string) :
  String.length b = 2 -> String.length ch = 3 -> String.length v = 3 ->
  String.length w = 3 -> String.length p <= 1 ->
  ClearID.new (b ++ ch ++ v ++ w ++ p)
  = inr (ClearID.mk (b ++ ch ++ v ++ w ++ p)
           (Some b) (Some ch) (Some v) (Some w) (Some p)).
Proof.
  intros Hb Hch Hv Hw Hp.
  destruct (length_2 b Hb) as (b1 & b2 & ->).
  destruct (length_3 ch Hch) as (c1 & c2 & c3 & ->).
  destruct (length_3 v Hv) as (v1 & v2 & v3 & ->).
  destruct (length_3 w Hw) as (w1 & w2 & w3 & ->).
  assert (Hcases : String.length p = 0 \/ String.length p = 1) by lia.
  destruct Hcases as [H0 | H1].
  - rewrite (length_0 p H0). reflexivity.
  - destruct (length_1 p H1) as (a & ->). reflexivity.
Qed.

Lemma ClearID_of_components_witness :
  String.length "43" = 2 /\ String.length "001" = 3 /\ String.length "002" = 3 /\
  String.length "005" = 3 /\ String.length "" <= 1 /\
  ClearID.new ("43" ++ "001" ++ "002" ++ "005" ++ "")
  = inr (ClearID.mk ("43" ++ "001" ++ "002" ++ "005" ++ "")
           (Some "43") (Some "001") (Some "002") (Some "005") (Some "")).
Proof.
  repeat (split; [simpl; lia |]).
  apply (ClearID_of_components "43" "001" "002" "005" ""); simpl; lia.
Defined.

Lemma substring_of_prefix s : forall k n m,
  n + m <= k -> substring n m (substring 0 k s) = substring n m s.
Proof.
  induction s as [| c s IH]; intros k n m H.
  - now rewrite !substring_empty.
  - destruct k as [| k].
    + assert (n = 0 /\ m = 0) as [-> ->] by lia. reflexivity.
    + cbn [substring]. destruct n as [| n].
      * destruct m as [| m]; [reflexivity |]. cbn [substring]. f_equal.
        apply (IH k 0 m). lia.
      * cbn [substring]. apply IH. lia.
Qed.

(** X3. A twelve-character identifier (a word part) and its first eleven
    characters (the word) name the same book, chapter, verse and word: both
    are constructed, the first four components agree, and the shorter one
    has the empty [part_ID]. *)
Theorem ClearID_word_of_part (s : string) (c : ClearID.t) :
  String.length s = 12 ->
  ClearID.new s = inr c ->
  exists c',
    ClearID.new (str_prefix 11 s) = inr c' /\
    ClearID.book_ID c' = ClearID.book_ID c /\
    ClearID.chapter_ID c' = ClearID.chapter_ID c /\
    ClearID.verse_ID c' = ClearID.verse_ID c /\
    ClearID.word_ID c' = ClearID.word_ID c /\
    ClearID.part_ID c' = Some "".
Proof.
  intros Hlen H. apply ClearID_new_inv in H as [_ ->].
  assert (L : String.length (str_prefix 11 s) = 11).
  { unfold str_prefix, str_slice. apply length_substring. lia. }
  eexists. split; [apply ClearID_new_11, L |].
  unfold str_prefix, str_slice. cbn [Nat.sub ClearID.book_ID ClearID.chapter_ID
    ClearID.verse_ID ClearID.word_ID ClearID.part_ID].
  rewrite !substring_of_prefix by lia. repeat split.
Qed.

Lemma ClearID_word_of_part_witness :
  String.length "430010010051" = 12 /\
  ClearID.new "430010010051"
  = inr (ClearID.mk "430010010051" (Some "43") (Some "001") (Some "001")
           (Some "005") (Some "1")) /\
  exists c',
    ClearID.new (str_prefix 11 "430010010051") = inr c' /\
    ClearID.book_ID c' = Some "43" /\ ClearID.chapter_ID c' = Some "001" /\
    ClearID.verse_ID c' = Some "001" /\ ClearID.word_ID c' = Some "005" /\
    ClearID.part_ID c' = Some "".
Proof.
  split; [reflexivity |]. split; [reflexivity |].
  apply (ClearID_word_of_part "430010010051"
           (ClearID.mk "430010010051" (Some "43") (Some "001") (Some "001")
              (Some "005") (Some "1"))); reflexivity.
Defined.

Lemma str_app_inv_tail s : forall t u,
  (s ++ u)%string = (t ++ u)%string -> s = t.
Proof.
  induction s as [| a s IH]; intros [| b t] u H.
  - reflexivity.
  - exfalso. apply (f_equal String.length) in H.
    simpl in H. rewrite str_app_length in H. lia.
  - exfalso. apply (f_equal String.length) in H.
    simpl in H. rewrite str_app_length in H. lia.
  - simpl in H. injection H as -> H. f_equal. now apply (IH t u).
Qed.

(** X4. [repr] tells constructed [ClearID]s apart: two constructed
    instances with the same [__repr__] text are equal in every attribute. *)
Theorem ClearID_repr_injective (s1 s2 : string) (c1 c2 : ClearID.t) :
  ClearID.new s1 = inr c1 -> ClearID.new s2 = inr c2 ->
  call ClearID_repr c1 = call ClearID_repr c2 ->
  c1 = c2.
Proof.
  intros H1 H2 Hrepr.
  apply ClearID_new_inv in H1 as [_ ->]. apply ClearID_new_inv in H2 as [_ ->].
  unfold ClearID_repr in Hrepr. run_method_in Hrepr.
  cbn [fst ClearID.ID] in Hrepr. injection Hrepr as Hrepr.
  apply str_app_inv_tail in Hrepr.
  now subst s2.
Qed.

Lemma ClearID_repr_injective_witness :
  ClearID.new "43001001005"
  = inr (ClearID.mk "43001001005" (Some "43") (Some "001") (Some "001")
           (Some "005") (Some "")) /\
  call ClearID_repr
    (ClearID.mk "43001001005" (Some "43") (Some "001") (Some "001")
       (Some "005") (Some ""))
  = inr "<ClearID: 43001001005>" /\
  ClearID.mk "43001001005" (Some "43") (Some "001") (Some "001") (Some "005") (Some "")
  = ClearID.mk "43001001005" (Some "43") (Some "001") (Some "001") (Some "005") (Some "").
Proof.
  split; [reflexivity |]. split; [reflexivity |].
  apply (ClearID_repr_injective "43001001005" "43001001005"); reflexivity.
Defined.

(** ** Mappings._add_prefix *)

Lemma writerow_asdict m st :
  Mappings.writerow Mappings.mappingfields (Mapping.asdict m) st
  = (inr tt, Mappings.write (row_of m) st).
Proof. reflexivity. Qed.

Section AddPrefixLoop.

(** The body of the loop: the object gets its prefix, then its row is
    written. *)
Variable body : nat -> M Mappings.state unit.

Hypothesis body_run : forall a st,
  body a st =
  (inr tt,
   Mappings.write (row_of (with_prefix (Mappings.objects st a)))
     (Mappings.set_object a (with_prefix (Mappings.objects st a)) st)).

(** The loop over any list of references: every object gets one prefix per
    occurrence in the list, and one row is written per element. *)
Lemma for_each_prefixes data : forall st,
  exists st',
    Mappings.for_each data body st = (inr tt, st') /\
    (forall a, Mappings.objects st' a
               = Nat.iter (count_occ Nat.eq_dec data a) with_prefix
                          (Mappings.objects st a)) /\
    List.length (Mappings.written st')
    = List.length (Mappings.written st) + List.length data.
Proof.
  induction data as [| x data IH]; intro st.
  - exists st. cbn. repeat split. lia.
  - cbn [Mappings.for_each]. unfold bind at 1. rewrite body_run.
    destruct (IH (Mappings.write (row_of (with_prefix (Mappings.objects st x)))
                    (Mappings.set_object x (with_prefix (Mappings.objects st x)) st)))
      as (st' & Hrun & Hobj & Hlen).
    exists st'. split; [exact Hrun |]. split.
    + intro a. rewrite Hobj. cbn [Mappings.objects Mappings.write Mappings.set_object].
      cbn [count_occ]. destruct (Nat.eq_dec x a) as [-> | Hne].
      * rewrite Nat.eqb_refl. now rewrite Nat.iter_succ_r.
      * destruct (Nat.eqb_spec a x) as [E | E]; [congruence | reflexivity].
    + rewrite Hlen. cbn [Mappings.written Mappings.write Mappings.set_object].
      rewrite length_app. cbn [List.length]. lia.
Qed.

(** The loop over distinct references: the listed objects get one prefix,
    the others none, and the rows written are the rows of the prefixed
    objects in the order of the list. *)
Lemma for_each_distinct data : forall st,
  NoDup data ->
  exists st',
    Mappings.for_each data body st = (inr tt, st') /\
    (forall a, In a data ->
               Mappings.objects st' a = with_prefix (Mappings.objects st a)) /\
    (forall a, ~ In a data -> Mappings.objects st' a = Mappings.objects st a) /\
    Mappings.written st'
    = Mappings.written st
      ++ map (fun a => row_of (with_prefix (Mappings.objects st a))) data.
Proof.
  induction data as [| x data IH]; intros st Hnd.
  - exists st. cbn. repeat split; try tauto. now rewrite app_nil_r.
  - inversion Hnd as [| ? ? Hx Hnd']; subst.
    cbn [Mappings.for_each]. unfold bind at 1. rewrite body_run.
    set (st1 := Mappings.write (row_of (with_prefix (Mappings.objects st x)))
                  (Mappings.set_object x (with_prefix (Mappings.objects st x)) st)).
    assert (Hother : forall a, a <> x -> Mappings.objects st1 a = Mappings.objects st a).
    { intros a Ha. subst st1. cbn [Mappings.objects Mappings.write Mappings.set_object].
      destruct (Nat.eqb_spec a x); [congruence | reflexivity]. }
    assert (Hsame : Mappings.objects st1 x = with_prefix (Mappings.objects st x)).
    { subst st1. cbn [Mappings.objects Mappings.write Mappings.set_object].
      now rewrite Nat.eqb_refl. }
    assert (Hwr : Mappings.written st1
                  = Mappings.written st
                    ++ [row_of (with_prefix (Mappings.objects st x))]).
    { reflexivity. }
    destruct (IH st1 Hnd') as (st' & Hrun & Hin & Hout & Hw).
    exists st'. split; [exact Hrun |]. split; [| split].
    + intros a [<- | Ha].
      * now rewrite (Hout x Hx).
      * rewrite (Hin a Ha), Hother; [reflexivity |]. intros ->. contradiction.
    + intros a Ha. rewrite Hout, Hother; [reflexivity | |].
      * intros ->. apply Ha. now left.
      * intro Hin'. apply Ha. now right.
    + rewrite Hw, Hwr. cbn [map].
      rewrite <- app_assoc. cbn [app]. do 2 f_equal.
      apply map_ext_in. intros a Ha. rewrite Hother; [reflexivity |].
      intros ->. contradiction.
Qed.

End AddPrefixLoop.

Lemma add_prefix_body_run a st :
  (old <- get (fun st => Mapping.NA1904_ID (Mappings.objects st a)) ;;
   m <- get (fun st => Mappings.objects st a) ;;
   setattr (Mappings.set_object a (Mapping.set_NA1904_ID ("n" ++ old) m)) ;;;
   m <- get (fun st => Mappings.objects st a) ;;
   Mappings.writerow Mappings.mappingfields (Mapping.asdict m)) st
  = (inr tt,
     Mappings.write (row_of (with_prefix (Mappings.objects st a)))
       (Mappings.set_object a (with_prefix (Mappings.objects st a)) st)).
Proof.
  unfold bind, get, setattr. cbv beta.
  rewrite writerow_asdict.
  cbn [Mappings.objects Mappings.set_object]. now rewrite Nat.eqb_refl.
Qed.

Lemma iter_with_prefix k m :
  Nat.iter k with_prefix m
  = Mapping.set_NA1904_ID (ns k ++ Mapping.NA1904_ID m) m.
Proof.
  induction k as [| k IH]; cbn [Nat.iter nat_rect ns].
  - now destruct m.
  - unfold Nat.iter in IH. rewrite IH. reflexivity.
Qed.

Lemma add_prefix_unfold data st :
  Mappings._add_prefix data st
  = Mappings.for_each data (fun mapping =>
      old <- get (fun st => Mapping.NA1904_ID (Mappings.objects st mapping)) ;;
      m <- get (fun st => Mappings.objects st mapping) ;;
      setattr (Mappings.set_object mapping (Mapping.set_NA1904_ID ("n" ++ old) m)) ;;;
      m <- get (fun st => Mappings.objects st mapping) ;;
      Mappings.writerow Mappings.mappingfields (Mapping.asdict m))
      (Mappings.mk (Mappings.objects st) [Mappings.mappingfields]).
Proof. reflexivity. Qed.

(** X5. Once the output file is open, every call of [_add_prefix] on a list
    of distinct [Mapping] objects (their fields strings) that returns leaves
    this: whatever the output file held before, it holds the header row and,
    in the order of the list, the row of every listed object with ["n"]
    before its [NA1904_ID] and the other six cells as they were; the listed
    objects themselves carry the prefix, and no other object is touched. *)
Theorem add_prefix_distinct (data : list nat) (st st' : Mappings.state) :
  NoDup data ->
  Mappings._add_prefix data st = (inr tt, st') ->
  Mappings.written st'
  = Mappings.mappingfields
    :: map (fun a =>
              let m := Mappings.objects st a in
              [("n" ++ Mapping.NA1904_ID m)%string; Mapping.NA1904_Text m;
               Mapping.NA27_ID m; Mapping.NA28_ID m; Mapping.SBLGNT_ID m;
               Mapping.SBLGNT_Text m; Mapping.MARBLE_ID m]) data /\
  (forall a, In a data ->
             Mappings.objects st' a
             = Mapping.set_NA1904_ID
                 ("n" ++ Mapping.NA1904_ID (Mappings.objects st a))
                 (Mappings.objects st a)) /\
  (forall a, ~ In a data -> Mappings.objects st' a = Mappings.objects st a).
Proof.
  intros Hnd Hcall. rewrite add_prefix_unfold in Hcall.
  destruct (for_each_distinct _ add_prefix_body_run data
              (Mappings.mk (Mappings.objects st) [Mappings.mappingfields]) Hnd)
    as (st'' & Hrun & Hin & Hout & Hw).
  assert (E : (inr tt, st'') = (@inr exn unit tt, st')).
  { rewrite <- Hrun. exact Hcall. }
  injection E as <-.
  split; [| split].
  - rewrite Hw. reflexivity.
  - intros a Ha. now rewrite (Hin a Ha).
  - intros a Ha. now rewrite (Hout a Ha).
Qed.

(** X6. [_add_prefix] works on the objects of [self.data], not on copies: a
    second call on the same distinct objects finds the prefix of the first
    and writes a file whose rows carry ["nn"] before the original
    [NA1904_ID]s. *)
Theorem add_prefix_twice (data : list nat) (st : Mappings.state) :
  NoDup data ->
  exists st1 st2,
    Mappings._add_prefix data st = (inr tt, st1) /\
    Mappings._add_prefix data st1 = (inr tt, st2) /\
    Mappings.written st2
    = Mappings.mappingfields
      :: map (fun a =>
                let m := Mappings.objects st a in
                [("nn" ++ Mapping.NA1904_ID m)%string; Mapping.NA1904_Text m;
                 Mapping.NA27_ID m; Mapping.NA28_ID m; Mapping.SBLGNT_ID m;
                 Mapping.SBLGNT_Text m; Mapping.MARBLE_ID m]) data.
Proof.
  intro Hnd.
  destruct (for_each_distinct _ add_prefix_body_run data
              (Mappings.mk (Mappings.objects st) [Mappings.mappingfields]) Hnd)
    as (st1 & Hrun1 & Hin1 & _ & _).
  destruct (for_each_distinct _ add_prefix_body_run data
              (Mappings.mk (Mappings.objects st1) [Mappings.mappingfields]) Hnd)
    as (st2 & Hrun2 & _ & _ & Hw2).
  exists st1, st2. rewrite !add_prefix_unfold.
  split; [exact Hrun1 |]. split; [exact Hrun2 |].
  rewrite Hw2. cbn [Mappings.written Mappings.objects app]. f_equal.
  apply map_ext_in. intros a Ha. rewrite (Hin1 a Ha). reflexivity.
Qed.

(** X7. Once the output file is open, every call of [_add_prefix] that
    returns, whatever [self.data] lists (objects whose fields are strings),
    has written one row per element after the header and leaves every object
    with as many ["n"] before its [NA1904_ID] as the list has references to
    it (none for an object not listed, two for an object listed twice); the
    other six fields of every object are unchanged. *)
Theorem add_prefix_occurrences (data : list nat) (st st' : Mappings.state) :
  Mappings._add_prefix data st = (inr tt, st') ->
  List.length (Mappings.written st') = S (List.length data) /\
  forall a,
    Mappings.objects st' a
    = Mapping.set_NA1904_ID
        (ns (count_occ Nat.eq_dec data a)
         ++ Mapping.NA1904_ID (Mappings.objects st a))
        (Mappings.objects st a).
Proof.
  intro Hcall. rewrite add_prefix_unfold in Hcall.
  destruct (for_each_prefixes _ add_prefix_body_run data
              (Mappings.mk (Mappings.objects st) [Mappings.mappingfields]))
    as (st'' & Hrun & Hobj & Hlen).
  assert (E : (inr tt, st'') = (@inr exn unit tt, st')).
  { rewrite <- Hrun. exact Hcall. }
  injection E as <-.
  split; [exact Hlen |].
  intro a. rewrite Hobj. apply iter_with_prefix.
Qed.

Lemma add_prefix_occurrences_witness :
  Mappings._add_prefix [0; 1; 0] example_mappings
  = (inr tt, snd (Mappings._add_prefix [0; 1; 0] example_mappings)) /\
  List.length
    (Mappings.written (snd (Mappings._add_prefix [0; 1; 0] example_mappings)))
  = S (List.length [0; 1; 0]) /\
  forall a,
    Mappings.objects (snd (Mappings._add_prefix [0; 1; 0] example_mappings)) a
    = Mapping.set_NA1904_ID
        (ns (count_occ Nat.eq_dec [0; 1; 0] a)
         ++ Mapping.NA1904_ID (Mappings.objects example_mappings a))
        (Mappings.objects example_mappings a).
Proof.
  split; [reflexivity |].
  apply (add_prefix_occurrences [0; 1; 0] example_mappings). reflexivity.
Defined.

Lemma add_prefix_distinct_witness :
  NoDup [0; 1] /\
  Mappings._add_prefix [0; 1] example_mappings
  = (inr tt, snd (Mappings._add_prefix [0; 1] example_mappings)) /\
  Mappings.written (snd (Mappings._add_prefix [0; 1] example_mappings))
  = Mappings.mappingfields
    :: map (fun a =>
              let m := Mappings.objects example_mappings a in
              [("n" ++ Mapping.NA1904_ID m)%string; Mapping.NA1904_Text m;
               Mapping.NA27_ID m; Mapping.NA28_ID m; Mapping.SBLGNT_ID m;
               Mapping.SBLGNT_Text m; Mapping.MARBLE_ID m]) [0; 1] /\
  (forall a, In a [0; 1] ->
             Mappings.objects (snd (Mappings._add_prefix [0; 1] example_mappings)) a
             = Mapping.set_NA1904_ID
                 ("n" ++ Mapping.NA1904_ID (Mappings.objects example_mappings a))
                 (Mappings.objects example_mappings a)) /\
  (forall a, ~ In a [0; 1] ->
             Mappings.objects (snd (Mappings._add_prefix [0; 1] example_mappings)) a
             = Mappings.objects example_mappings a).
Proof.
  assert (Hnd : NoDup [0; 1]).
  { constructor; [simpl; intros [H | []]; discriminate |].
    constructor; [simpl; tauto | constructor]. }
  split; [exact Hnd |]. split; [reflexivity |].
  apply (add_prefix_distinct [0; 1] example_mappings _ Hnd). reflexivity.
Defined.

Lemma add_prefix_twice_witness :
  NoDup [0; 1] /\
  exists st1 st2,
    Mappings._add_prefix [0; 1] example_mappings = (inr tt, st1) /\
    Mappings._add_prefix [0; 1] st1 = (inr tt, st2) /\
    Mappings.written st2
    = Mappings.mappingfields
      :: map (fun a =>
                let m := Mappings.objects example_mappings a in
                [("nn" ++ Mapping.NA1904_ID m)%string; Mapping.NA1904_Text m;
                 Mapping.NA27_ID m; Mapping.NA28_ID m; Mapping.SBLGNT_ID m;
                 Mapping.SBLGNT_Text m; Mapping.MARBLE_ID m]) [0; 1].
Proof.
  assert (Hnd : NoDup [0; 1]).
  { constructor; [simpl; intros [H | []]; discriminate |].
    constructor; [simpl; tauto | constructor]. }
  split; [exact Hnd |].
  apply (add_prefix_twice [0; 1] example_mappings Hnd).
Defined.

(** ** [split] *)

Lemma split_nonempty sep s : Mappings.split sep s <> [].
Proof.
  destruct s as [| c s]; cbn [Mappings.split]; [discriminate |].
  destruct (Ascii.eqb c sep); [discriminate |].
  destruct (Mappings.split sep s); discriminate.
Qed.

Lemma split_without sep s :
  NameRange.contains sep s = false -> Mappings.split sep s = [s].
Proof.
  induction s as [| c s IH]; cbn [Mappings.split NameRange.contains]; intro H.
  - reflexivity.
  - apply orb_false_iff in H as [Hc Hs]. rewrite Hc, (IH Hs). reflexivity.
Qed.

Lemma length_split sep s :
  List.length (Mappings.split sep s) = S (count_char sep s).
Proof.
  induction s as [| c s IH]; cbn [Mappings.split count_char].
  - reflexivity.
  - destruct (Ascii.eqb c sep).
    + cbn [List.length]. now rewrite IH.
    + pose proof (split_nonempty sep s) as Hne.
      destruct (Mappings.split sep s) as [| piece rest]; [congruence |].
      cbn [List.length] in *. exact IH.
Qed.

Lemma join_split sep s : join sep (Mappings.split sep s) = s.
Proof.
  induction s as [| c s IH]; cbn [Mappings.split].
  - reflexivity.
  - pose proof (split_nonempty sep s) as Hne.
    destruct (Ascii.eqb_spec c sep) as [-> | Hc].
    + destruct (Mappings.split sep s) as [| piece rest]; [congruence |].
      cbn [join] in *. cbn [append]. now rewrite IH.
    + destruct (Mappings.split sep s) as [| piece rest]; [congruence |].
      destruct rest as [| piece' rest]; cbn [join] in *.
      * now rewrite IH.
      * cbn [append]. now rewrite IH.
Qed.

Lemma split_pieces sep s :
  Forall (fun piece => NameRange.contains sep piece = false) (Mappings.split sep s).
Proof.
  induction s as [| c s IH]; cbn [Mappings.split].
  - repeat constructor.
  - pose proof (split_nonempty sep s) as Hne.
    destruct (Ascii.eqb c sep) eqn:Hc.
    + constructor; [reflexivity | exact IH].
    + destruct (Mappings.split sep s) as [| piece rest]; [congruence |].
      inversion IH as [| ? ? Hp Hr]; subst. constructor; [| exact Hr].
      cbn [NameRange.contains]. now rewrite Hc, Hp.
Qed.

(** A character other than the separator is in the text when it is in one
    of the pieces. *)
Lemma contains_split sep c s :
  c <> sep ->
  NameRange.contains c s = existsb (NameRange.contains c) (Mappings.split sep s).
Proof.
  intro Hne. induction s as [| d s IH]; cbn [Mappings.split NameRange.contains].
  - reflexivity.
  - pose proof (split_nonempty sep s) as Hs.
    destruct (Ascii.eqb_spec d sep) as [-> | Hd].
    + cbn [existsb NameRange.contains].
      destruct (Ascii.eqb_spec sep c); [congruence |]. exact IH.
    + destruct (Mappings.split sep s) as [| piece rest]; [congruence |].
      cbn [existsb NameRange.contains] in *. rewrite IH. now rewrite orb_assoc.
Qed.

(** ** The header check of Mappings.__init__ *)

Lemma mem_In x l : Mappings.mem x l = true <-> In x l.
Proof.
  unfold Mappings.mem. rewrite existsb_exists. split.
  - intros (y & Hy & E). apply String.eqb_eq in E. now subst.
  - intro H. exists x. split; [exact H | apply String.eqb_refl].
Qed.

(** X8. The header check looks at the first column name only.  When that
    name holds no tabulator, the check passes exactly when the name is one of
    the seven fields of [Mapping], whatever the other columns are called and
    however many there are; otherwise it raises the fieldname-discrepancy
    assertion. *)
Theorem check_fieldnames_first_only (first : string) (others : list string) :
  NameRange.contains Mappings.tab first = false ->
  (In first Mappings.mappingfields ->
   Mappings.check_fieldnames (first :: others) = inr tt) /\
  (~ In first Mappings.mappingfields ->
   Mappings.check_fieldnames (first :: others) = inl Mappings.FieldnameDiscrepancy).
Proof.
  intro Htab. unfold Mappings.check_fieldnames.
  rewrite (split_without _ _ Htab). cbn [filter].
  destruct (Mappings.mem first Mappings.mappingfields) eqn:E; cbn [negb].
  - apply mem_In in E. split; [reflexivity | contradiction].
  - split; [| reflexivity]. intro H. apply mem_In in H. congruence.
Qed.

Lemma check_fieldnames_first_only_witness :
  NameRange.contains Mappings.tab "NA1904_ID" = false /\
  (In "NA1904_ID" Mappings.mappingfields ->
   Mappings.check_fieldnames ["NA1904_ID"; "anything"] = inr tt) /\
  (~ In "NA1904_ID" Mappings.mappingfields ->
   Mappings.check_fieldnames ["NA1904_ID"; "anything"]
   = inl Mappings.FieldnameDiscrepancy).
Proof.
  split; [reflexivity |].
  apply (check_fieldnames_first_only "NA1904_ID" ["anything"]). reflexivity.
Defined.

(** ** detect_name_range *)

Section DetectNameRange.

Variable nameregexp_match : string -> option nat.
Variable fromname_usfmnumber : string -> result string.

(** X9. [detect_name_range] needs exactly one hyphen: a reference with none,
    or with two or more, raises the [ValueError] of the unpacking, whatever
    the book table is. *)
Theorem detect_name_range_one_hyphen (ref : string) :
  count_char "-" ref <> 1 ->
  NameRange.detect_name_range nameregexp_match fromname_usfmnumber ref
  = inl NameRange.Unpack.
Proof.
  intro H. unfold NameRange.detect_name_range.
  pose proof (length_split "-" ref) as L.
  destruct (Mappings.split "-" ref) as [| r1 [| r2 [| r3 rest]]];
    cbn [List.length] in L; try reflexivity.
  lia.
Qed.

(** X10. A reference with one hyphen and a comma on either side of it raises
    the complex-range assertion, before any book name is looked up. *)
Theorem detect_name_range_comma (ref : string) :
  count_char "-" ref = 1 ->
  NameRange.contains "," ref = true ->
  NameRange.detect_name_range nameregexp_match fromname_usfmnumber ref
  = inl NameRange.ComplexRange.
Proof.
  intros H Hc. unfold NameRange.detect_name_range.
  pose proof (length_split "-" ref) as L.
  rewrite (contains_split "-" "," ref) in Hc by discriminate.
  destruct (Mappings.split "-" ref) as [| r1 [| r2 [| r3 rest]]];
    cbn [List.length] in L; try lia.
  cbn [existsb] in Hc. rewrite orb_false_r in Hc. now rewrite Hc.
Qed.

(** The function on a reference given as its two halves. *)
Lemma detect_name_range_halves ref1 ref2 :
  NameRange.contains "-" ref1 = false -> NameRange.contains "-" ref2 = false ->
  NameRange.detect_name_range nameregexp_match fromname_usfmnumber
    (ref1 ++ String "-" ref2)
  = if NameRange.contains "," ref1 || NameRange.contains "," ref2
    then inl NameRange.ComplexRange
    else
      match nameregexp_match ref1 with
      | None => inl NameRange.InvalidName
      | Some n =>
          match fromname_usfmnumber (str_prefix n ref1) with
          | inl e => inl (NameRange.BookLookup e)
          | inr usfmbook =>
              if NameRange.contains ":" ref1
              then inr (usfmbook ++ ", verserange")%string
              else inr (usfmbook ++ ", chapterrange")%string
          end
      end.
Proof.
  intros H1 H2. unfold NameRange.detect_name_range.
  assert (E : Mappings.split "-" (ref1 ++ String "-" ref2) = [ref1; ref2]).
  { clear - H1 H2. induction ref1 as [| c r IH]; cbn [append Mappings.split].
    - cbn. now rewrite (split_without _ _ H2).
    - cbn [NameRange.contains] in H1. apply orb_false_iff in H1 as [Hc Hr].
      rewrite Hc, (IH Hr). reflexivity. }
  rewrite E. reflexivity.
Qed.

(** X11. What follows the hyphen is checked for a comma and is otherwise
    never read: two references that differ only after the hyphen, neither
    with a comma there, give the same result or the same exception.  So a
    chapter and verse after the hyphen does not make a verse range. *)
Theorem detect_name_range_ignores_end (ref1 ref2 ref2' : string) :
  NameRange.contains "-" ref1 = false ->
  NameRange.contains "-" ref2 = false -> NameRange.contains "-" ref2' = false ->
  NameRange.contains "," ref2 = false -> NameRange.contains "," ref2' = false ->
  NameRange.detect_name_range nameregexp_match fromname_usfmnumber
    (ref1 ++ String "-" ref2)
  = NameRange.detect_name_range nameregexp_match fromname_usfmnumber
      (ref1 ++ String "-" ref2').
Proof.
  intros H1 H2 H2' Hc Hc'.
  rewrite !detect_name_range_halves by assumption. now rewrite Hc, Hc'.
Qed.

(** X12. When [detect_name_range] returns, the reference is two halves around
    its one hyphen, neither with a comma; the book name looked up is the
    matched start of the first half; and the result is the book's USFM
    number followed by [", verserange"] when the first half holds a colon
    and by [", chapterrange"] when it does not. *)
Theorem detect_name_range_result (ref r : string) :
  NameRange.detect_name_range nameregexp_match fromname_usfmnumber ref = inr r ->
  exists ref1 ref2 n usfmbook,
    ref = (ref1 ++ String "-" ref2)%string /\
    NameRange.contains "-" ref1 = false /\ NameRange.contains "-" ref2 = false /\
    NameRange.contains "," ref = false /\
    nameregexp_match ref1 = Some n /\
    fromname_usfmnumber (str_prefix n ref1) = inr usfmbook /\
    r = (usfmbook ++ (if NameRange.contains ":" ref1
                      then ", verserange" else ", chapterrange"))%string.
Proof.
  intro H.
  pose proof (join_split "-" ref) as J.
  pose proof (split_pieces "-" ref) as P.
  pose proof (contains_split "-" "," ref) as C.
  unfold NameRange.detect_name_range in H.
  destruct (Mappings.split "-" ref) as [| ref1 [| ref2 [| r3 rest]]];
    try discriminate.
  apply Forall_cons_iff in P as [P1 P']. apply Forall_cons_iff in P' as [P2 _].
  cbn [existsb] in C. rewrite orb_false_r in C.
  destruct (NameRange.contains "," ref1 || NameRange.contains "," ref2) eqn:Hc;
    [discriminate |].
  destruct (nameregexp_match ref1) as [n |] eqn:Hm; [| discriminate].
  destruct (fromname_usfmnumber (str_prefix n ref1)) as [e | usfmbook] eqn:Hf;
    [discriminate |].
  exists ref1, ref2, n, usfmbook. cbn [join] in J.
  split; [now symmetry |]. split; [exact P1 |]. split; [exact P2 |].
  split; [apply C; discriminate |]. split; [exact Hm |]. split; [exact Hf |].
  destruct (NameRange.contains ":" ref1); now injection H as <-.
Qed.

End DetectNameRange.

Lemma detect_name_range_one_hyphen_witness :
  count_char "-" "Mark 1" <> 1 /\
  NameRange.detect_name_range example_match example_usfmnumber "Mark 1"
  = inl NameRange.Unpack.
Proof.
  assert (H : count_char "-" "Mark 1" <> 1) by (vm_compute; discriminate).
  split; [exact H |].
  apply (detect_name_range_one_hyphen example_match example_usfmnumber "Mark 1" H).
Defined.

Lemma detect_name_range_comma_witness :
  count_char "-" "Mark 1:1-3,5" = 1 /\
  NameRange.contains "," "Mark 1:1-3,5" = true /\
  NameRange.detect_name_range example_match example_usfmnumber "Mark 1:1-3,5"
  = inl NameRange.ComplexRange.
Proof.
  split; [reflexivity |]. split; [reflexivity |].
  apply (detect_name_range_comma example_match example_usfmnumber "Mark 1:1-3,5");
    reflexivity.
Defined.

Lemma detect_name_range_ignores_end_witness :
  NameRange.contains "-" "Mark 1" = false /\
  NameRange.contains "-" "2" = false /\ NameRange.contains "-" "2:3" = false /\
  NameRange.contains "," "2" = false /\ NameRange.contains "," "2:3" = false /\
  NameRange.detect_name_range example_match example_usfmnumber ("Mark 1" ++ String "-" "2")
  = NameRange.detect_name_range example_match example_usfmnumber
      ("Mark 1" ++ String "-" "2:3").
Proof.
  do 5 (split; [reflexivity |]).
  apply (detect_name_range_ignores_end example_match example_usfmnumber
           "Mark 1" "2" "2:3"); reflexivity.
Defined.

Lemma detect_name_range_result_witness :
  NameRange.detect_name_range example_match example_usfmnumber "Mark 1:40-2:2"
  = inr "41, verserange" /\
  exists ref1 ref2 n usfmbook,
    "Mark 1:40-2:2" = (ref1 ++ String "-" ref2)%string /\
    NameRange.contains "-" ref1 = false /\ NameRange.contains "-" ref2 = false /\
    NameRange.contains "," "Mark 1:40-2:2" = false /\
    example_match ref1 = Some n /\
    example_usfmnumber (str_prefix n ref1) = inr usfmbook /\
    "41, verserange"
    = (usfmbook ++ (if NameRange.contains ":" ref1
                    then ", verserange" else ", chapterrange"))%string.
Proof.
  split; [reflexivity |].
  apply (detect_name_range_result example_match example_usfmnumber
           "Mark 1:40-2:2" "41, verserange").
  reflexivity.
Defined.

(** ** The enumerated verses in the order of the identifiers *)

Lemma digits_value_app s t :
  digits_value (s ++ t)
  = digits_value s * 10 ^ String.length t + digits_value t.
Proof.
  induction s as [| c s IH]; cbn [append digits_value].
  - lia.
  - rewrite IH, str_app_length, Nat.pow_add_r. nia.
Qed.

Lemma verse_at_compare b ci v ci' v' :
  ci < 1000 -> v < 1000 -> ci' < 1000 -> v' < 1000 ->
  String.compare (BCVID.ID (Verse.identifier (verse_at b ci v)))
                 (BCVID.ID (Verse.identifier (verse_at b ci' v')))
  = Nat.compare (ci * 1000 + v) (ci' * 1000 + v').
Proof.
  intros Hci Hv Hci' Hv'.
  destruct (pad3_spec ci Hci) as (L1 & D1 & V1).
  destruct (pad3_spec v Hv) as (L2 & D2 & V2).
  destruct (pad3_spec ci' Hci') as (L3 & D3 & V3).
  destruct (pad3_spec v' Hv') as (L4 & D4 & V4).
  unfold verse_at. fields. rewrite !str_app_assoc.
  rewrite (compare_app b b) by reflexivity. rewrite compare_refl.
  rewrite compare_digits.
  - rewrite !digits_value_app, V1, V2, V3, V4, L2, L4. reflexivity.
  - rewrite !str_app_length. congruence.
  - now rewrite all_digits_app, D1, D2.
  - now rewrite all_digits_app, D3, D4.
Qed.

Lemma verse_at_lt b ci v ci' v' :
  ci < 1000 -> v < 1000 -> ci' < 1000 -> v' < 1000 ->
  ci < ci' \/ (ci = ci' /\ v < v') ->
  verse_lt (verse_at b ci v) (verse_at b ci' v').
Proof.
  intros Hci Hv Hci' Hv' H. unfold verse_lt, String.ltb.
  rewrite verse_at_compare by assumption.
  destruct (Nat.compare_spec (ci * 1000 + v) (ci' * 1000 + v')); [lia | reflexivity | lia].
Qed.

Lemma verse_at_leb b ci v ci' v' :
  ci < 1000 -> v < 1000 -> ci' < 1000 -> v' < 1000 ->
  ci < ci' \/ (ci = ci' /\ v <= v') ->
  BCVID.leb (Verse.identifier (verse_at b ci v)) (Verse.identifier (verse_at b ci' v'))
  = true.
Proof.
  intros Hci Hv Hci' Hv' H. unfold BCVID.leb, String.leb.
  rewrite verse_at_compare by assumption.
  destruct (Nat.compare_spec (ci * 1000 + v) (ci' * 1000 + v')); [reflexivity | reflexivity | lia].
Qed.

Lemma verse_at_wf b ci v :
  String.length b = 2 -> all_digits b = true -> ci < 1000 -> v < 1000 ->
  BCVID.wf (Verse.identifier (verse_at b ci v)) = true /\
  BCVID.book_ID (Verse.identifier (verse_at b ci v)) = b.
Proof.
  intros Lb Db Hci Hv.
  destruct (pad3_spec ci Hci) as (L1 & D1 & _).
  destruct (pad3_spec v Hv) as (L2 & D2 & _).
  destruct (BCVID_slices b (pad ci 3) (pad v 3) Lb L1 L2) as (Pb & _).
  unfold verse_at, BCVID.wf, BCVID.book_ID. fields. rewrite str_app_assoc, Pb.
  split; [| reflexivity].
  rewrite !str_app_length, !all_digits_app, Lb, L1, L2, Db, D1, D2. reflexivity.
Qed.

Lemma verses_of_verse_at b ci a e :
  verses_of (BCID.mk (b ++ pad ci 3)) a e = map (verse_at b ci) (seq a (e + 1 - a)).
Proof. reflexivity. Qed.

Lemma in_verses_of b ci a e x :
  In x (verses_of (BCID.mk (b ++ pad ci 3)) a e) ->
  exists v, x = verse_at b ci v /\ a <= v <= e.
Proof.
  rewrite verses_of_verse_at. intro H. apply in_map_iff in H as (v & <- & Hv).
  apply in_seq in Hv. exists v. split; [reflexivity | lia].
Qed.

Lemma StronglySorted_app {A} (R : A -> A -> Prop) l1 l2 :
  StronglySorted R l1 -> StronglySorted R l2 ->
  (forall x y, In x l1 -> In y l2 -> R x y) ->
  StronglySorted R (l1 ++ l2).
Proof.
  intros H1 H2 Hcross. induction H1 as [| x l1 Hs IH Hall]; cbn [app].
  - exact H2.
  - constructor.
    + apply IH. intros a b Ha Hb. apply Hcross; [now right | exact Hb].
    + apply Forall_app. split; [exact Hall |].
      apply Forall_forall. intros y Hy. apply Hcross; [now left | exact Hy].
Qed.

Lemma sorted_verses_of b ci a e :
  ci < 1000 -> e < 1000 ->
  StronglySorted verse_lt (verses_of (BCID.mk (b ++ pad ci 3)) a e).
Proof.
  intros Hci He. rewrite verses_of_verse_at.
  assert (G : forall n a, a + n <= 1000 ->
              StronglySorted verse_lt (map (verse_at b ci) (seq a n))).
  { induction n as [| n IH]; intros a0 H0; cbn [seq map].
    - constructor.
    - constructor; [apply IH; lia |].
      apply Forall_forall. intros y Hy. apply in_map_iff in Hy as (v & <- & Hv).
      apply in_seq in Hv. apply verse_at_lt; lia. }
  destruct (Nat.le_gt_cases a e) as [Hle | Hgt].
  - apply G. lia.
  - replace (e + 1 - a) with 0 by lia. constructor.
Qed.

Section EnumeratedVerses.

Variable lastverse_of : BCID.t -> nat.
Variable str_eq_BID : string -> BID.t -> bool.

Hypothesis str_eq_BID_sound :
  forall s b, str_eq_BID s b = true -> s = BID.ID b.

(** No chapter has a verse number that does not fit three digits. *)
Hypothesis lastverse_three_digits : forall c, lastverse_of c < 1000.

Lemma in_chapters b c0 n x :
  In x (flat_map (fun c => verses_of c 1 (lastverse_of c))
          (map (fun i => BCID.mk (b ++ pad i 3)) (seq c0 n))) ->
  exists ci v, x = verse_at b ci v /\ c0 <= ci < c0 + n /\ 1 <= v < 1000.
Proof.
  intro H. apply in_flat_map in H as (c & Hc & Hx).
  apply in_map_iff in Hc as (ci & <- & Hci). apply in_seq in Hci.
  apply in_verses_of in Hx as (v & -> & Hv).
  pose proof (lastverse_three_digits (BCID.mk (b ++ pad ci 3))).
  exists ci, v. repeat split; lia.
Qed.

Lemma sorted_chapters b : forall n c0,
  c0 + n <= 1000 ->
  StronglySorted verse_lt
    (flat_map (fun c => verses_of c 1 (lastverse_of c))
       (map (fun i => BCID.mk (b ++ pad i 3)) (seq c0 n))).
Proof.
  induction n as [| n IH]; intros c0 H; cbn [seq map flat_map].
  - constructor.
  - apply StronglySorted_app.
    + apply sorted_verses_of; [lia | apply lastverse_three_digits].
    + apply IH. lia.
    + intros x y Hx Hy. apply in_verses_of in Hx as (v & -> & Hv).
      apply in_chapters in Hy as (ci & v' & -> & Hci & Hv').
      pose proof (lastverse_three_digits (BCID.mk (b ++ pad c0 3))).
      apply verse_at_lt; lia.
Qed.

(** The enumeration of a validly constructed range, by cases, with the
    identifiers taken apart. *)
Lemma VerseRange_enumerate_cases s e vr :
  BCVID.wf s = true -> BCVID.wf e = true ->
  VerseRange.new str_eq_BID s e = inr vr ->
  exists b sc sv ec ev l,
    call (VerseRange.enumerate lastverse_of) vr = inr l /\
    (String.length b = 2 /\ all_digits b = true) /\
    (sc < 1000 /\ sv < 1000 /\ ec < 1000 /\ ev < 1000) /\
    Verse.mk s = verse_at b sc sv /\ Verse.mk e = verse_at b ec ev /\
    ((sc = ec /\ sv <= ev /\ l = verses_of (BCID.mk (b ++ pad sc 3)) sv ev) \/
     (sc < ec /\
      l = verses_of (BCID.mk (b ++ pad sc 3)) sv
            (lastverse_of (BCID.mk (b ++ pad sc 3)))
          ++ flat_map (fun c => verses_of c 1 (lastverse_of c))
               (middle_chapters b sc ec)
          ++ verses_of (BCID.mk (b ++ pad ec 3)) 1 ev)).
Proof.
  intros Ws We Hnew.
  destruct (VerseRange_valid str_eq_BID str_eq_BID_sound s e vr Ws We Hnew)
    as (b & c1 & v1 & c2 & v2 & -> & -> & -> & (Lb & Db) & (Lc1 & Dc1)
        & (L1 & D1) & (Lc2 & Dc2) & (L2 & D2) & Horder).
  destruct (digits3_int c1 Lc1 Dc1) as (_ & Bc1).
  destruct (digits3_int c2 Lc2 Dc2) as (_ & Bc2).
  destruct (digits3_int v1 L1 D1) as (_ & B1).
  destruct (digits3_int v2 L2 D2) as (_ & B2).
  exists b, (digits_value c1), (digits_value v1), (digits_value c2), (digits_value v2).
  unfold call, verse_at.
  rewrite !(pad3_value c1 Lc1 Dc1), !(pad3_value c2 Lc2 Dc2),
    !(pad3_value v1 L1 D1), !(pad3_value v2 L2 D2), !str_app_assoc.
  destruct Horder as [[<- Hle] | Hlt].
  - rewrite (VerseRange_enumerate_single lastverse_of b c1 v1 v2) by assumption.
    eexists. fields. split; [reflexivity |]. repeat split; auto.
  - rewrite (VerseRange_enumerate_multi lastverse_of b c1 v1 c2 v2) by assumption.
    eexists. fields. split; [reflexivity |]. repeat split; auto.
Qed.

(** X13. The verses that [enumerate()] returns are in strictly ascending
    order of their identifiers, so no verse is returned twice, whenever every
    chapter's last verse number fits the three digits of the encoding. *)
Theorem VerseRange_enumerate_ascending (s e : BCVID.t) (vr : VerseRange.t) :
  BCVID.wf s = true -> BCVID.wf e = true ->
  VerseRange.new str_eq_BID s e = inr vr ->
  exists l,
    call (VerseRange.enumerate lastverse_of) vr = inr l /\
    StronglySorted verse_lt l.
Proof.
  intros Ws We Hnew.
  destruct (VerseRange_enumerate_cases s e vr Ws We Hnew)
    as (b & sc & sv & ec & ev & l & Hrun & (Lb & Db) & (Bsc & Bsv & Bec & Bev)
        & _ & _ & Hcases).
  exists l. split; [exact Hrun |].
  destruct Hcases as [(<- & Hle & ->) | (Hlt & ->)].
  - now apply sorted_verses_of.
  - apply StronglySorted_app; [| apply StronglySorted_app |].
    + apply sorted_verses_of; [lia | apply lastverse_three_digits].
    + apply sorted_chapters. lia.
    + now apply sorted_verses_of.
    + intros x y Hx Hy. apply in_chapters in Hx as (ci & v & -> & Hci & Hv).
      apply in_verses_of in Hy as (v' & -> & Hv').
      apply verse_at_lt; lia.
    + intros x y Hx Hy. apply in_verses_of in Hx as (v & -> & Hv).
      pose proof (lastverse_three_digits (BCID.mk (b ++ pad sc 3))).
      apply in_app_or in Hy as [Hy | Hy].
      * apply in_chapters in Hy as (ci & v' & -> & Hci & Hv').
        apply verse_at_lt; lia.
      * apply in_verses_of in Hy as (v' & -> & Hv').
        apply verse_at_lt; lia.
Qed.

(** X14. [enumerate()] stays inside the range: every verse it returns has a
    well-formed identifier of the book of [startid] that lies between
    [startid] and [endid], both included, in the order of the identifiers;
    again for last verse numbers that fit three digits. *)
Theorem VerseRange_enumerate_within (s e : BCVID.t) (vr : VerseRange.t) :
  BCVID.wf s = true -> BCVID.wf e = true ->
  VerseRange.new str_eq_BID s e = inr vr ->
  exists l,
    call (VerseRange.enumerate lastverse_of) vr = inr l /\
    Forall (fun x =>
              BCVID.wf (Verse.identifier x) = true /\
              BCVID.book_ID (Verse.identifier x) = BCVID.book_ID s /\
              verse_within s e x) l.
Proof.
  intros Ws We Hnew.
  destruct (VerseRange_enumerate_cases s e vr Ws We Hnew)
    as (b & sc & sv & ec & ev & l & Hrun & (Lb & Db) & (Bsc & Bsv & Bec & Bev)
        & Hs & He & Hcases).
  exists l. split; [exact Hrun |].
  assert (Hbook : BCVID.book_ID s = b).
  { change s with (Verse.identifier (Verse.mk s)). rewrite Hs.
    now apply verse_at_wf. }
  assert (G : forall ci v, ci < 1000 -> v < 1000 ->
              (sc < ci \/ (sc = ci /\ sv <= v)) ->
              (ci < ec \/ (ci = ec /\ v <= ev)) ->
              BCVID.wf (Verse.identifier (verse_at b ci v)) = true /\
              BCVID.book_ID (Verse.identifier (verse_at b ci v)) = BCVID.book_ID s /\
              verse_within s e (verse_at b ci v)).
  { intros ci v Hci Hv Hlo Hhi.
    destruct (verse_at_wf b ci v Lb Db Hci Hv) as (W & B).
    split; [exact W |]. split; [congruence |]. unfold verse_within.
    change s with (Verse.identifier (Verse.mk s)).
    change e with (Verse.identifier (Verse.mk e)). rewrite Hs, He.
    split; apply verse_at_leb; auto. }
  apply Forall_forall. intros x Hx.
  destruct Hcases as [(<- & Hle & ->) | (Hlt & ->)].
  - apply in_verses_of in Hx as (v & -> & Hv). apply G; lia.
  - pose proof (lastverse_three_digits (BCID.mk (b ++ pad sc 3))).
    apply in_app_or in Hx as [Hx | Hx]; [| apply in_app_or in Hx as [Hx | Hx]].
    + apply in_verses_of in Hx as (v & -> & Hv). apply G; lia.
    + apply in_chapters in Hx as (ci & v & -> & Hci & Hv). apply G; lia.
    + apply in_verses_of in Hx as (v & -> & Hv). apply G; lia.
Qed.

(** X15. For a validly constructed range whose two identifiers have the same
    chapter component (the one-chapter path, the vacuous range included),
    [enumerate()] returns exactly the verses of that chapter numbered from
    [startid]'s verse number through [endid]'s, and never asks for the
    chapter's last verse number. *)
Theorem VerseRange_enumerate_single_chapter (s e : BCVID.t) (vr : VerseRange.t) :
  BCVID.wf s = true -> BCVID.wf e = true ->
  VerseRange.new str_eq_BID s e = inr vr ->
  BCVID.chapter_ID s = BCVID.chapter_ID e ->
  exists sv ev,
    int (BCVID.verse_ID s) = inr sv /\ int (BCVID.verse_ID e) = inr ev /\
    sv <= ev /\
    forall table : BCID.t -> nat,
      call (VerseRange.enumerate table) vr
      = inr (verses_of (simplify s BCID.t) sv ev).
Proof.
  intros Ws We Hnew Hchap.
  destruct (VerseRange_valid str_eq_BID str_eq_BID_sound s e vr Ws We Hnew)
    as (b & c1 & v1 & c2 & v2 & -> & -> & -> & (Lb & Db) & (Lc1 & Dc1)
        & (L1 & D1) & (Lc2 & Dc2) & (L2 & D2) & Horder).
  destruct (BCVID_slices b c1 v1 Lb Lc1 L1) as (_ & Pc1 & Pv1 & P51).
  destruct (BCVID_slices b c2 v2 Lb Lc2 L2) as (_ & Pc2 & Pv2 & _).
  destruct (digits3_int v1 L1 D1) as (I1 & _).
  destruct (digits3_int v2 L2 D2) as (I2 & _).
  unfold BCVID.chapter_ID, BCVID.verse_ID in *. fields_in Hchap. fields.
  rewrite Pc1, Pc2 in Hchap. subst c2.
  rewrite Pv1, Pv2, simplify_BCVID_BCID_eq. fields. rewrite P51.
  destruct Horder as [[_ Hle] | Hlt]; [| lia].
  exists (digits_value v1), (digits_value v2).
  split; [exact I1 |]. split; [exact I2 |]. split; [exact Hle |].
  intro table. unfold call.
  now rewrite (VerseRange_enumerate_single table b c1 v1 v2) by assumption.
Qed.

End EnumeratedVerses.

Lemma Mark_lastverse_three_digits c : Mark_lastverse c < 1000.
Proof.
  unfold Mark_lastverse. cbn [find fst snd].
  repeat (destruct (_ =? BCID.ID c)%string; [cbn [snd]; lia |]).
  lia.
Qed.

Lemma VerseRange_enumerate_ascending_witness :
  (forall s b, ID_eq s b = true -> s = BID.ID b) /\
  (forall c, Mark_lastverse c < 1000) /\
  BCVID.wf (BCVID.mk "41001040") = true /\
  BCVID.wf (BCVID.mk "41003002") = true /\
  VerseRange.new ID_eq (BCVID.mk "41001040") (BCVID.mk "41003002")
  = inr (VerseRange.mk (BCVID.mk "41001040") (BCVID.mk "41003002") None (Some "41")) /\
  exists l,
    call (VerseRange.enumerate Mark_lastverse)
         (VerseRange.mk (BCVID.mk "41001040") (BCVID.mk "41003002") None (Some "41"))
    = inr l /\
    StronglySorted verse_lt l.
Proof.
  split; [exact ID_eq_sound |]. split; [exact Mark_lastverse_three_digits |].
  split; [reflexivity |]. split; [reflexivity |]. split; [reflexivity |].
  apply (VerseRange_enumerate_ascending Mark_lastverse ID_eq ID_eq_sound
           Mark_lastverse_three_digits (BCVID.mk "41001040") (BCVID.mk "41003002"));
    reflexivity.
Defined.

Lemma VerseRange_enumerate_within_witness :
  (forall s b, ID_eq s b = true -> s = BID.ID b) /\
  (forall c, Mark_lastverse c < 1000) /\
  BCVID.wf (BCVID.mk "41001040") = true /\
  BCVID.wf (BCVID.mk "41003002") = true /\
  VerseRange.new ID_eq (BCVID.mk "41001040") (BCVID.mk "41003002")
  = inr (VerseRange.mk (BCVID.mk "41001040") (BCVID.mk "41003002") None (Some "41")) /\
  exists l,
    call (VerseRange.enumerate Mark_lastverse)
         (VerseRange.mk (BCVID.mk "41001040") (BCVID.mk "41003002") None (Some "41"))
    = inr l /\
    Forall (fun x =>
              BCVID.wf (Verse.identifier x) = true /\
              BCVID.book_ID (Verse.identifier x) = BCVID.book_ID (BCVID.mk "41001040") /\
              verse_within (BCVID.mk "41001040") (BCVID.mk "41003002") x) l.
Proof.
  split; [exact ID_eq_sound |]. split; [exact Mark_lastverse_three_digits |].
  split; [reflexivity |]. split; [reflexivity |]. split; [reflexivity |].
  apply (VerseRange_enumerate_within Mark_lastverse ID_eq ID_eq_sound
           Mark_lastverse_three_digits (BCVID.mk "41001040") (BCVID.mk "41003002"));
    reflexivity.
Defined.

Lemma VerseRange_enumerate_single_chapter_witness :
  (forall s b, ID_eq s b = true -> s = BID.ID b) /\
  BCVID.wf (BCVID.mk "43001001") = true /\
  BCVID.wf (BCVID.mk "43001005") = true /\
  VerseRange.new ID_eq (BCVID.mk "43001001") (BCVID.mk "43001005")
  = inr (VerseRange.mk (BCVID.mk "43001001") (BCVID.mk "43001005") None (Some "43")) /\
  BCVID.chapter_ID (BCVID.mk "43001001") = BCVID.chapter_ID (BCVID.mk "43001005") /\
  exists sv ev,
    int (BCVID.verse_ID (BCVID.mk "43001001")) = inr sv /\
    int (BCVID.verse_ID (BCVID.mk "43001005")) = inr ev /\
    sv <= ev /\
    forall table : BCID.t -> nat,
      call (VerseRange.enumerate table)
           (VerseRange.mk (BCVID.mk "43001001") (BCVID.mk "43001005") None (Some "43"))
      = inr (verses_of (simplify (BCVID.mk "43001001") BCID.t) sv ev).
Proof.
  split; [exact ID_eq_sound |].
  split; [reflexivity |]. split; [reflexivity |]. split; [reflexivity |].
  split; [reflexivity |].
  apply (VerseRange_enumerate_single_chapter ID_eq ID_eq_sound
           (BCVID.mk "43001001") (BCVID.mk "43001005")); reflexivity.
Defined.

(** ** More on ChapterRange *)

Lemma chapter_pad_facts b i :
  String.length b = 2 -> all_digits b = true -> i < 1000 ->
  BCID.wf (BCID.mk (b ++ pad i 3)) = true /\
  BCID.book_ID (BCID.mk (b ++ pad i 3)) = b /\
  BCID.chapter_ID (BCID.mk (b ++ pad i 3)) = pad i 3.
Proof.
  intros Lb Db Hi. destruct (pad3_spec i Hi) as (L & D & _).
  destruct (BCID_slices b (pad i 3) Lb L) as (Pb & Pc).
  unfold BCID.wf, BCID.book_ID, BCID.chapter_ID. fields.
  rewrite str_app_length, all_digits_app, Lb, L, Db, D. auto.
Qed.

(** X16. A validly constructed [ChapterRange] enumerates as many chapters as
    there are numbers from the start chapter through the end chapter, each
    with a well-formed identifier of the range's book that lies between
    [startid] and [endid], both included. *)
Theorem ChapterRange_enumerate_within (s e : BCID.t) (cr : ChapterRange.t) :
  BCID.wf s = true -> BCID.wf e = true ->
  ChapterRange.new s e = inr cr ->
  exists l a b,
    call ChapterRange.enumerate cr = inr l /\
    int (BCID.chapter_ID s) = inr a /\ int (BCID.chapter_ID e) = inr b /\
    List.length l = b - a + 1 /\
    Forall (fun c =>
              BCID.wf (Chapter.identifier c) = true /\
              BCID.book_ID (Chapter.identifier c) = BCID.book_ID s /\
              BCID.leb s (Chapter.identifier c) = true /\
              BCID.leb (Chapter.identifier c) e = true) l.
Proof.
  intros Ws We Hnew.
  destruct (ChapterRange_valid s e cr Ws We Hnew)
    as (b & c1 & c2 & -> & -> & -> & Lb & Db & L1 & D1 & L2 & D2 & Hle).
  destruct (BCID_slices b c1 Lb L1) as (Pb1 & Pc1).
  destruct (BCID_slices b c2 Lb L2) as (_ & Pc2).
  destruct (digits3_int c1 L1 D1) as (I1 & B1).
  destruct (digits3_int c2 L2 D2) as (I2 & B2).
  exists (map Chapter.mk (chapters_between b (digits_value c1) (digits_value c2))),
    (digits_value c1), (digits_value c2).
  unfold call. rewrite (ChapterRange_enumerate_run b c1 c2) by assumption.
  unfold BCID.chapter_ID at 1 2, BCID.book_ID at 2. fields. rewrite Pb1, Pc1, Pc2.
  split; [reflexivity |]. split; [exact I1 |]. split; [exact I2 |]. split.
  - unfold chapters_between. rewrite !length_map, length_seq. lia.
  - apply Forall_forall. intros c Hc.
    apply in_map_iff in Hc as (x & <- & Hx). unfold chapters_between in Hx.
    apply in_map_iff in Hx as (i & <- & Hi). apply in_seq in Hi.
    assert (Bi : i < 1000) by lia.
    destruct (chapter_pad_facts b i Lb Db Bi) as (W & Bk & _).
    destruct (pad3_spec i Bi) as (L & D & V).
    fields. split; [exact W |]. split; [exact Bk |].
    unfold BCID.leb. fields. rewrite !leb_app_same, !leb_digits, V by congruence.
    split; apply Nat.leb_le; lia.
Qed.

Lemma ChapterRange_enumerate_within_witness :
  BCID.wf (BCID.mk "41002") = true /\
  BCID.wf (BCID.mk "41005") = true /\
  ChapterRange.new (BCID.mk "41002") (BCID.mk "41005")
  = inr (ChapterRange.mk (BCID.mk "41002") (BCID.mk "41005")) /\
  exists l a b,
    call ChapterRange.enumerate (ChapterRange.mk (BCID.mk "41002") (BCID.mk "41005"))
    = inr l /\
    int (BCID.chapter_ID (BCID.mk "41002")) = inr a /\
    int (BCID.chapter_ID (BCID.mk "41005")) = inr b /\
    List.length l = b - a + 1 /\
    Forall (fun c =>
              BCID.wf (Chapter.identifier c) = true /\
              BCID.book_ID (Chapter.identifier c) = BCID.book_ID (BCID.mk "41002") /\
              BCID.leb (BCID.mk "41002") (Chapter.identifier c) = true /\
              BCID.leb (Chapter.identifier c) (BCID.mk "41005") = true) l.
Proof.
  split; [reflexivity |]. split; [reflexivity |]. split; [reflexivity |].
  apply (ChapterRange_enumerate_within (BCID.mk "41002") (BCID.mk "41005"));
    reflexivity.
Defined.

(** X17. Chapter ranges compose: when the range from [s] to [m] and the
    range from [m] to [e] are both validly constructed, so is the range from
    [s] to [e], and its enumeration is the enumeration of the first followed
    by that of the second without its first chapter. *)
Theorem ChapterRange_enumerate_compose (s m e : BCID.t) (r1 r2 : ChapterRange.t) :
  BCID.wf s = true -> BCID.wf m = true -> BCID.wf e = true ->
  ChapterRange.new s m = inr r1 -> ChapterRange.new m e = inr r2 ->
  exists r l1 l2,
    ChapterRange.new s e = inr r /\
    call ChapterRange.enumerate r1 = inr l1 /\
    call ChapterRange.enumerate r2 = inr l2 /\
    call ChapterRange.enumerate r = inr (l1 ++ tl l2).
Proof.
  intros Ws Wm We H1 H2.
  destruct (ChapterRange_valid s m r1 Ws Wm H1)
    as (b & c1 & c2 & -> & -> & -> & Lb & Db & L1 & D1 & L2 & D2 & Hle1).
  destruct (ChapterRange_valid _ e r2 Wm We H2)
    as (b' & c2' & c3 & Em & -> & -> & Lb' & Db' & L2' & D2' & L3 & D3 & Hle2).
  injection Em as Em. apply str_app_inv_length in Em as [<- <-]; [| congruence].
  destruct (BCID_slices b c1 Lb L1) as (Pb1 & _).
  destruct (BCID_slices b c3 Lb L3) as (Pb3 & _).
  exists (ChapterRange.mk (BCID.mk (b ++ c1)) (BCID.mk (b ++ c3))).
  do 2 eexists. unfold call.
  rewrite (ChapterRange_enumerate_run b c1 c2), (ChapterRange_enumerate_run b c2 c3),
    (ChapterRange_enumerate_run b c1 c3) by (assumption || lia).
  fields. split; [| split; [reflexivity | split; [reflexivity |]]].
  - rewrite ChapterRange_new_spec, !simplify_BCID_BID_eq. fields.
    rewrite Pb1, Pb3. unfold BID.eqb, BCID.leb. fields.
    rewrite String.eqb_refl, leb_app_same, leb_digits by congruence.
    destruct (Nat.leb_spec (digits_value c1) (digits_value c3)); [reflexivity | lia].
  - f_equal. unfold chapters_between.
    replace (digits_value c3 + 1 - digits_value c2)
      with (S (digits_value c3 - digits_value c2)) by lia.
    cbn [seq map tl]. rewrite <- !map_app. do 2 f_equal.
    replace (digits_value c3 + 1 - digits_value c1)
      with ((digits_value c2 + 1 - digits_value c1)
            + (digits_value c3 - digits_value c2)) by lia.
    rewrite seq_app. do 2 f_equal. lia.
Qed.

Lemma ChapterRange_enumerate_compose_witness :
  BCID.wf (BCID.mk "41002") = true /\ BCID.wf (BCID.mk "41004") = true /\
  BCID.wf (BCID.mk "41005") = true /\
  ChapterRange.new (BCID.mk "41002") (BCID.mk "41004")
  = inr (ChapterRange.mk (BCID.mk "41002") (BCID.mk "41004")) /\
  ChapterRange.new (BCID.mk "41004") (BCID.mk "41005")
  = inr (ChapterRange.mk (BCID.mk "41004") (BCID.mk "41005")) /\
  exists r l1 l2,
    ChapterRange.new (BCID.mk "41002") (BCID.mk "41005") = inr r /\
    call ChapterRange.enumerate (ChapterRange.mk (BCID.mk "41002") (BCID.mk "41004"))
    = inr l1 /\
    call ChapterRange.enumerate (ChapterRange.mk (BCID.mk "41004") (BCID.mk "41005"))
    = inr l2 /\
    call ChapterRange.enumerate r = inr (l1 ++ tl l2).
Proof.
  do 5 (split; [reflexivity |]).
  apply (ChapterRange_enumerate_compose (BCID.mk "41002") (BCID.mk "41004")
           (BCID.mk "41005")); reflexivity.
Defined.
